(** * groundcrew: the agent's dispatch loop, tool-argument reconciliation,
      schema export and the Ollama chat adapter

    A shallow embedding of
      - [src/groundcrew/gc_dataclasses.py]  (messages, tool calls, tools),
      - [src/groundcrew/agent.py]           (Agent.dispatch, run_tool, interact),
      - [src/groundcrew/utils.py]           (highlight_code, parse_tool_schema,
                                             save_tools_to_yaml),
      - [src/groundcrew/llm/ollama_api.py]  (start_chat.chat_func),
    followed by the properties of the specification that concern them.

    Python dictionaries that are only ever used as maps (the keyword
    arguments of a tool call) are [gmap string _]; dictionaries whose
    iteration order is observable (the tool registry, JSON objects written to
    a file) are insertion-ordered association lists. *)

From stdpp Require Import gmap strings list fin_maps.

Local Open Scope string_scope.
Local Open Scope list_scope.
#[local] Set Warnings "-clear-no-such-hyp".

(** ** Python values and exceptions *)

(** The values that [json.loads] can put into [function_args]: the scalars,
    and [PyOther] for a float, a list or a nested object, kept by its repr. *)
Inductive pyval : Type :=
| PyNone
| PyBool (b : bool)
| PyInt (z : Z)
| PyStr (s : string)
| PyOther (repr : string).

(** Exceptions derived from Python's [Exception]; [exn_str] is [str(e)].
    [RaisedException] stands for whatever a tool handler or a backend raises:
    its class name and its message. *)
Inductive exn : Type :=
| IndexError (msg : string)
| TypeError (msg : string)
| AttributeError (msg : string)
| ValueError (msg : string)
| KeyError (msg : string)
| UnboundLocalError (msg : string)
| RaisedException (cls msg : string).

Definition exn_str (e : exn) : string :=
  match e with
  | IndexError m | TypeError m | AttributeError m | ValueError m
  | UnboundLocalError m | RaisedException _ m => m
  | KeyError m => "'" +:+ m +:+ "'"
  end.

(** The outcome of running a piece of Python: a value, a raised exception, or
    no outcome within the number of loop iterations the model was given. *)
Inductive outcome (A : Type) : Type :=
| Returned (a : A)
| Raised (e : exn)
| Unfinished.
Arguments Returned {A} a.
Arguments Raised {A} e.
Arguments Unfinished {A}.

Definition nl : string := String (Ascii.ascii_of_nat 10) EmptyString.
Definition dquote : string := String (Ascii.ascii_of_nat 34) EmptyString.

(** A Python [dict] whose iteration order is observable: the items in
    insertion order.  [dict_get d k] is [d[k]] ([None] where Python raises
    KeyError, which is also [k not in d]); [dict_del d k] is [del d[k]]: the
    keys of a dictionary are distinct, so at most one item goes. *)
Definition dict (V : Type) : Type := list (string * V).

Fixpoint dict_get {V} (d : dict V) (k : string) : option V :=
  match d with
  | [] => None
  | (k', v) :: d' => if decide (k' = k) then Some v else dict_get d' k
  end.

Definition dict_values {V} (d : dict V) : list V := map snd d.

Definition dict_keys {V} (d : dict V) : list string := map fst d.

Fixpoint dict_del {V} (d : dict V) (k : string) : dict V :=
  match d with
  | [] => []
  | (k', v) :: d' =>
      if decide (k' = k) then dict_del d' k else (k', v) :: dict_del d' k
  end.

(** [d[k] = v]: the value is replaced where the key is, a new key goes to the
    end. *)
Fixpoint dict_set {V} (d : dict V) (k : string) (v : V) : dict V :=
  match d with
  | [] => [(k, v)]
  | (k', v') :: d' =>
      if decide (k' = k) then (k', v) :: d' else (k', v') :: dict_set d' k v
  end.

(** Python's [sub in s] for strings. *)
Fixpoint contains (sub s : string) : bool :=
  String.prefix sub s ||
  match s with
  | EmptyString => false
  | String _ s' => contains sub s'
  end.

(** [s[n:]] *)
Fixpoint string_drop (n : nat) (s : string) : string :=
  match n, s with
  | S n', String _ s' => string_drop n' s'
  | _, _ => s
  end.

(** Python's [s.replace(old, new)] for a non-empty [old]: the occurrences
    are found from the left and do not overlap.  Every step takes at least
    one character off [s], so [String.length s] steps are enough. *)
Fixpoint replace_steps (steps : nat) (old new s : string) : string :=
  match steps, s with
  | S steps', String c s' =>
      if String.prefix old s then
        new +:+ replace_steps steps' old new
                  (string_drop (String.length old) s)
      else String c (replace_steps steps' old new s')
  | _, _ => s
  end.

Definition replace (old new s : string) : string :=
  replace_steps (String.length s) old new s.

(** [s[:n]] for [n] from 0 to the length of [s]. *)
Fixpoint string_take (n : nat) (s : string) : string :=
  match n, s with
  | S n', String c s' => String c (string_take n' s')
  | _, _ => EmptyString
  end.

(** A bound of a slice as Python reads it: a negative index counts from the
    end, and what lies outside the string is clipped to it. *)
Definition slice_bound (len : nat) (i : Z) : nat :=
  Z.to_nat (Z.min (Z.of_nat len)
                  (if (i <? 0)%Z then Z.max 0 (i + Z.of_nat len) else i)).

(** [s[:i]] and [s[i:]] *)
Definition slice_to (s : string) (i : Z) : string :=
  string_take (slice_bound (String.length s) i) s.
Definition slice_from (s : string) (i : Z) : string :=
  string_drop (slice_bound (String.length s) i) s.

(** Python's [s.find(sub, start)]: the lowest index from [start] on at which
    [sub] occurs, or -1.  [find_steps] searches a suffix of the string that
    begins at index [idx]. *)
Fixpoint find_steps (sub s : string) (idx : Z) : Z :=
  if String.prefix sub s then idx
  else match s with
       | EmptyString => (-1)%Z
       | String _ s' => find_steps sub s' (idx + 1)%Z
       end.

Definition find (sub s : string) (start : Z) : Z :=
  let len := Z.of_nat (String.length s) in
  let start := if (start <? 0)%Z then Z.max 0 (start + len) else start in
  if (len <? start)%Z then (-1)%Z
  else find_steps sub (string_drop (Z.to_nat start) s) start.

(** Python's [s.split(sep)] for a non-empty [sep]: the pieces between the
    occurrences of [sep], found from the left without overlap; there is
    always at least one piece.  [String.length s] steps are enough. *)
Fixpoint split_steps (steps : nat) (sep s : string) : list string :=
  match steps, s with
  | S steps', String c s' =>
      if String.prefix sep s then
        EmptyString :: split_steps steps' sep (string_drop (String.length sep) s)
      else match split_steps steps' sep s' with
           | piece :: pieces => String c piece :: pieces
           | [] => [String c EmptyString]
           end
  | _, _ => [s]
  end.

Definition split (sep s : string) : list string :=
  split_steps (String.length s) sep s.

(** JSON-like trees: the schemas handed to the LLM backend and dumped to
    YAML. *)
#[local] Set Warnings "-register-all".
Inductive json : Type :=
| JNull
| JBool (b : bool)
| JNum (z : Z)
| JStr (s : string)
| JArr (items : list json)
| JObj (fields : list (string * json)).
#[local] Set Warnings "register-all".

(** ** gc_dataclasses.py *)

Module gc_dataclasses.

Record ToolCall : Type := mkToolCall {
  function_name : string;
    function_args : gmap string pyval;
    tool_call_id : option string;
    tool_type : option string
  }.

(** Modelled from the spec: agent.py imports SystemMessage, UserMessage and
    AssistantMessage from groundcrew.llm.openaiapi, which is not among the
    sources; section 3 of the specification gives their fields, and
    gc_dataclasses.py declares classes of the same names with the same
    fields.  Every construction site leaves [role] at its default, so the
    role is a function of the variant. *)
Inductive Message : Type :=
| SystemMessage (content : string)
| UserMessage (content : string)
| AssistantMessage (content : string) (tool_calls : option (list ToolCall))
| ToolMessage (content : string) (tool_call_id : option string)
                (name : option string).

Definition role (m : Message) : string :=
  match m with
  | SystemMessage _ => "system"
  | UserMessage _ => "user"
  | AssistantMessage _ _ => "assistant"
  | ToolMessage _ _ _ => "tool"
  end.

Definition content (m : Message) : string :=
  match m with
  | SystemMessage c | UserMessage c | AssistantMessage c _
  | ToolMessage c _ _ => c
  end.

Definition is_tool_message (m : Message) : bool :=
  match m with ToolMessage _ _ _ => true | _ => false end.

(** The callable stored in [Tool.obj].  [parameters] is what
    [inspect.signature(tool.obj).parameters] lists, in order; [call w kw]
    is the call of [tool.obj] with the keywords [kw] in the external world
    [w] (the vector database, the LLM a tool may use, ...), Python's own
    binding of the keywords to the signature included: it returns the tool's
    string or raises. *)
Record Callable (World : Type) : Type := mkCallable {
    parameters : list string;
    call : World → gmap string pyval → outcome string * World
  }.
Arguments mkCallable {World} _ _.
Arguments parameters {World} _.
Arguments call {World} _ _ _.

Record Tool (World : Type) : Type := mkTool {
    name : string;
    code : string;
    description : string;
    params : dict (dict json);
    obj : Callable World;
    schema : json
  }.
Arguments mkTool {World} _ _ _ _ _ _.
Arguments name {World} _.
Arguments code {World} _.
Arguments description {World} _.
Arguments params {World} _.
Arguments obj {World} _.
Arguments schema {World} _.

Record Config : Type := mkConfig {
    colorscheme : string;
    debug : bool
  }.

(** class Colors *)
Module Colors.
Definition esc : string := String (Ascii.ascii_of_nat 27) EmptyString.
Definition RED : string := esc +:+ "[31m".
Definition GREEN : string := esc +:+ "[32m".
Definition YELLOW : string := esc +:+ "[33m".
Definition BLUE : string := esc +:+ "[94m".
Definition ENDC : string := esc +:+ "[0m".
End Colors.

End gc_dataclasses.
Export gc_dataclasses.

(** ** system_prompts.py *)

Module system_prompts.
Definition AGENT_PROMPT : string :=
  nl +:+ "You are an assistant that answers question about a codebase. All of the user's questions should be about this particular codebase, and you will be given tools that you can use to help you answer questions about the codebase." +:+ nl.
End system_prompts.

(** ** agent.py: the argument reconciliation of [Agent.run_tool] *)

Module reconcile.

(** Lines 151-156: [for param_name, val in tool_args.items(): if
    param_name in expected_tool_args: new_args[param_name] = val]. *)
Definition filter_step (expected : list string)
    (param_name : string) (val : pyval) (new_args : gmap string pyval)
    : gmap string pyval :=
  if decide (param_name ∈ expected) then <[param_name := val]> new_args
  else new_args.

Definition filter_incorrect (expected : list string)
    (tool_args : gmap string pyval) : gmap string pyval :=
  map_fold (filter_step expected) ∅ tool_args.

(** Lines 160-164: [for param_name in expected_tool_args.keys(): if
    param_name == 'user_prompt': continue; if param_name not in tool_args:
    tool_args[param_name] = None]. *)
Definition fill_step (tool_args : gmap string pyval) (param_name : string)
    : gmap string pyval :=
  if decide (param_name = "user_prompt") then tool_args
  else match tool_args !! param_name with
       | None => <[param_name := PyNone]> tool_args
       | Some _ => tool_args
       end.

Definition add_missing (expected : list string)
    (tool_args : gmap string pyval) : gmap string pyval :=
  foldl fill_step tool_args expected.

(** The keyword arguments [run_tool] ends up passing to [tool.obj]. *)
Definition effective_args (expected : list string)
    (function_args : gmap string pyval) : gmap string pyval :=
  add_missing expected (filter_incorrect expected function_args).

(** The formula of section 4.4 of the specification, word for word:
    [{k: A[k] for k in A if k in P} ∪
     {k: <absent> for k in P if k ∉ A and k != 'user_prompt'}]. *)
Definition spec_effective_args (P : list string) (A : gmap string pyval)
    : gmap string pyval :=
  filter (λ kv, kv.1 ∈ P) A ∪
  gset_to_gmap PyNone
    (filter (λ k, (k ∉ dom A) ∧ (k ≠ "user_prompt")) (list_to_set P)).

End reconcile.

(** ** agent.py: class Agent *)

Module agent.
Section Agent.

Context {World : Type}.

(** [self.llm]: the chat function handed to the constructor.  It returns a
    message or raises, and may change the external world. *)
Variable llm : World → list Message → outcome Message * World.

(** The renderer that [Agent.print] calls, [None] when the call does not
    return.  In the program it is [utils.highlight_code], which is embedded
    in [utils] below over the pygments call; the loop, the tools and the
    session are described for any renderer, what [interact] prints for
    [utils.highlight_code] itself. *)
Variable highlight_code : string → string → option string.

(** The f-string rendering [{tool_args}] of a keyword dictionary. *)
Variable repr_args : gmap string pyval → string.

(** What can be observed of a run from outside the agent: the contexts
    handed to [self.llm] and the handlers entered, in order. *)
Inductive event : Type :=
| LlmCall (context : list Message)
| ToolRun (tool_name : string) (kwargs : gmap string pyval).

(** The fields of [self], the external world, the lines printed and the
    events so far.  The spinner (a terminal animation) is left out. *)
Record state : Type := mkState {
    config : Config;
    tools : dict (Tool World);
    messages : list Message;
    dispatch_messages : list Message;
    world : World;
    stdout : list string;
    trace : list event
  }.

Definition set_dispatch_messages (l : list Message) (s : state) : state :=
  mkState (config s) (tools s) (messages s) l (world s) (stdout s) (trace s).
Definition set_messages (l : list Message) (s : state) : state :=
  mkState (config s) (tools s) l (dispatch_messages s) (world s) (stdout s)
          (trace s).
Definition set_world (w : World) (s : state) : state :=
  mkState (config s) (tools s) (messages s) (dispatch_messages s) w
          (stdout s) (trace s).
Definition set_stdout (l : list string) (s : state) : state :=
  mkState (config s) (tools s) (messages s) (dispatch_messages s) (world s)
          l (trace s).
Definition set_trace (l : list event) (s : state) : state :=
  mkState (config s) (tools s) (messages s) (dispatch_messages s) (world s)
          (stdout s) l.

(** Python statements: state passing with exceptions.  What a statement did
    before it raised stays done. *)
Definition M (A : Type) : Type := state → outcome A * state.

#[local] Instance M_ret : MRet M := λ A a s, (Returned a, s).
#[local] Instance M_bind : MBind M := λ A B f m s,
  match m s with
  | (Returned a, s') => f a s'
  | (Raised e, s') => (Raised e, s')
  | (Unfinished, s') => (Unfinished, s')
  end.

Definition get : M state := λ s, (Returned s, s).
Definition raise {A} (e : exn) : M A := λ s, (Raised e, s).
Definition unfinished {A} : M A := λ s, (Unfinished, s).

(** [try: body except Exception as e: handler e] *)
Definition try_except {A} (body : M A) (handler : exn → M A) : M A := λ s,
  match body s with
  | (Raised e, s') => handler e s'
  | r => r
  end.

(** The builtin [print] of one line. *)
Definition print_line (line : string) : M unit := λ s,
  (Returned tt, set_stdout (stdout s ++ [line]) s).

Definition append_dispatch (m : Message) : M unit := λ s,
  (Returned tt, set_dispatch_messages (dispatch_messages s ++ [m]) s).

(** [self.llm(context)] *)
Definition call_llm (context : list Message) : M Message := λ s,
  let '(r, w) := llm (world s) context in
  (r, set_world w (set_trace (trace s ++ [LlmCall context]) s)).

(** The call of [tool.obj] with the keyword arguments [tool_args]. *)
Definition call_tool (tool : Tool World) (tool_args : gmap string pyval)
    : M string := λ s,
  let '(r, w) := call (obj tool) (world s) tool_args in
  (r, set_world w (set_trace (trace s ++ [ToolRun (name tool) tool_args]) s)).

(** [self.colors] *)
Definition colors (role : string) : option string :=
  if decide (role = "system") then Some Colors.YELLOW
  else if decide (role = "user") then Some Colors.GREEN
  else if decide (role = "agent") then Some Colors.BLUE
  else None.

(** [Agent.print(text, role)] *)
Definition print (text role : string) : M unit :=
  color ← match colors role with
          | Some c => mret c
          | None => raise (KeyError role)
          end;
  print_line color;;
  print_line ("[" +:+ role +:+ "]");;
  print_line Colors.ENDC;;
  s ← get;
  match highlight_code text (colorscheme (config s)) with
  | Some out => print_line out
  | None => unfinished
  end.

Definition stars : string :=
  nl +:+ " " +:+ "**************************************************"
     +:+ " " +:+ nl.

(** The [for] loop of [print_message_history]; [color] is the local
    variable, unbound until a user, system or assistant message is met. *)
Fixpoint print_history_loop (color : option string) (l : list Message)
    : M unit :=
  match l with
  | [] => mret tt
  | message :: rest =>
    let color :=
      if decide (role message = "user") then Some Colors.GREEN
      else if decide (role message = "system") then Some Colors.RED
      else if decide (role message = "assistant") then Some Colors.BLUE
      else color in
    print_line ("Role: " +:+ role message);;
    match color with
    | Some c => print_line c
    | None => raise (UnboundLocalError "cannot access local variable 'color' where it is not associated with a value")
    end;;
    print_line (content message);;
    print_line Colors.ENDC;;
    print_history_loop color rest
  end.

Definition print_message_history (l : list Message) : M unit :=
  print_line stars;;
  print_history_loop None l;;
  print_line stars.

(** [llm_response.tool_calls[0]] *)
Definition first_tool_call (llm_response : Message) : M ToolCall :=
  match llm_response with
  | AssistantMessage _ (Some (tc :: _)) => mret tc
  | AssistantMessage _ (Some []) =>
      raise (IndexError "list index out of range")
  | AssistantMessage _ None =>
      raise (TypeError "'NoneType' object is not subscriptable")
  | _ => raise (AttributeError "object has no attribute 'tool_calls'")
  end.

(** [Agent.extract_params] *)
Definition extract_params (llm_response : Message)
    : M (gmap string pyval) :=
  tc ← first_tool_call llm_response;
  mret (function_args tc).

(** [Agent.run_tool] *)
Definition run_tool (llm_response : Message) : M string :=
  tc ← first_tool_call llm_response;
  let tool_selection := function_name tc in
  s ← get;
  match dict_get (tools s) tool_selection with
  | None => mret "The LLM tried to call a function that does not exist."
  | Some tool =>
    tool_args ← extract_params llm_response;
    let expected_tool_args := parameters (obj tool) in
    let tool_args := reconcile.filter_incorrect expected_tool_args tool_args in
    let tool_args := reconcile.add_missing expected_tool_args tool_args in
    (if debug (config s) then
       print_line ("Please standby while I run the tool " +:+ name tool
                   +:+ "...");;
       print_line ("(" +:+ dquote +:+ "Tool Args" +:+ dquote +:+ ": "
                   +:+ repr_args tool_args +:+ ")");;
       print_line EmptyString
     else mret tt);;
    call_tool tool tool_args
  end.

(** The header put before the raw prompt (line 217). *)
Definition question_header : string :=
  nl +:+ nl +:+ "### Question ###" +:+ nl.

(** The prompt context of lines 226-228. *)
Definition context_of (s : state) : list Message :=
  [SystemMessage system_prompts.AGENT_PROMPT] ++ messages s
    ++ dispatch_messages s.

(** One pass through the body of the [while True] loop of
    [Agent.dispatch]: [false] for [break], [true] for reaching the end of
    the body.  [tool_calls[0]] is read several times by the source, always
    from the same frozen message; it is read once here, where the source
    reads it first (the [print] of line 240, outside the [try]). *)
Definition dispatch_body : M bool :=
  s ← get;
  select_tool_response ← call_llm (context_of s);
  append_dispatch select_tool_response;;
  if negb (bool_decide (role select_tool_response = "assistant")) then
    mret false
  else
    match select_tool_response with
    | AssistantMessage _ None =>
        print_line "No tool selected";; mret false
    | _ =>
        tc ← first_tool_call select_tool_response;
        print_line ("Tool selected: " +:+ function_name tc);;
        tool_response ←
          try_except (run_tool select_tool_response)
            (λ e, mret ("An error occurred while running the tool: "
                        +:+ exn_str e));
        append_dispatch
          (ToolMessage tool_response (tool_call_id tc)
                       (Some (function_name tc)));;
        mret true
    end.

(** The loop itself, which the source does not bound: [fuel] passes. *)
Fixpoint dispatch_loop (fuel : nat) : M unit :=
  match fuel with
  | O => unfinished
  | S fuel' =>
      continue ← dispatch_body;
      if continue : bool then dispatch_loop fuel' else mret tt
  end.

(** [Agent.dispatch] *)
Definition dispatch (fuel : nat) (user_prompt : string) : M unit :=
  (λ s, (Returned tt, set_dispatch_messages [] s));;
  let user_question := question_header +:+ user_prompt in
  append_dispatch (UserMessage user_question);;
  dispatch_loop fuel.

(** [self.messages.extend(self.dispatch_messages)] *)
Definition extend_messages : M unit := λ s,
  (Returned tt, set_messages (messages s ++ dispatch_messages s) s).

(** [self.messages[-1].content] *)
Definition last_content : M string :=
  s ← get;
  match last (messages s) with
  | Some m => mret (content m)
  | None => raise (IndexError "list index out of range")
  end.

(** [Agent.interact]; the function has no [return] statement, so the caller
    receives [None]. *)
Definition interact (fuel : nat) (user_prompt : string) : M pyval :=
  dispatch fuel user_prompt;;
  extend_messages;;
  s ← get;
  (if debug (config s) then print_message_history (messages s)
   else mret tt);;
  text ← last_content;
  print text "agent";;
  mret PyNone.

(** [Agent.interact_functional] *)
Definition interact_functional (fuel : nat) (user_prompt : string)
    : M pyval :=
  dispatch fuel user_prompt;;
  extend_messages;;
  content ← last_content;
  print content "agent";;
  mret (PyStr content).

(** *** [Agent.run]

    The terminal input is the list of the lines still to be typed;
    [input()] takes the first one and raises EOFError when there is none.
    The text [input] shows before it reads is left out of [stdout]. *)

Definition EOFError : exn := RaisedException "EOFError" "EOF when reading a line".

(** Lines 119-123: the lines of code mode, up to the first one that contains
    '\end'; that line is read and dropped. *)
Fixpoint read_code (user_prompt : string) (stdin : list string)
    : M (string * list string) :=
  match stdin with
  | [] => raise EOFError
  | line :: rest =>
      if negb (contains "\end" line) then
        read_code (user_prompt +:+ line +:+ nl) rest
      else mret (user_prompt, rest)
  end.

(** Line 115: the notice of code mode.  In the source the character after
    the dash is a no-break space (U+00A0, the bytes 194 160), not a plain
    space; the text [print] writes is kept byte for byte. *)
Definition code_mode_notice : string :=
  "Code mode activated — type \end to submit".

(** Lines 109-123: [while user_prompt == '': ...], with what is left of the
    input. *)
Fixpoint read_prompt (stdin : list string) : M (string * list string) :=
  match stdin with
  | [] => raise EOFError
  | user_prompt :: rest =>
      if contains "\code" user_prompt then
        print_line Colors.YELLOW;;
        print_line code_mode_notice;;
        print_line Colors.ENDC;;
        read_code (user_prompt +:+ nl) rest
      else if decide (user_prompt = EmptyString) then read_prompt rest
      else mret (user_prompt, rest)
  end.

(** [Agent.run]: [turns] passes through the outer [while True], each with
    [fuel] for its dispatch. *)
Fixpoint run (turns fuel : nat) (stdin : list string) : M unit :=
  match turns with
  | O => unfinished
  | S turns' =>
      typed ← read_prompt stdin;
      let user_prompt := replace "\code" EmptyString typed.1 in
      if bool_decide (user_prompt = "exit" ∨ user_prompt = "quit"
                      ∨ user_prompt = "q") then mret tt
      else interact fuel user_prompt;; run turns' fuel typed.2
  end.

(** *** Shapes of a run

    What a finished working set and the events of a run look like; the
    checks are used to state what the loop keeps. *)

(** An assistant message that asks for at least one tool, followed by the
    ToolMessage that answers its first call: same id, same name. *)
Definition is_tool_round (asked answered : Message) : bool :=
  match asked, answered with
  | AssistantMessage _ (Some (tc :: _)), ToolMessage _ i n =>
      bool_decide (i = tool_call_id tc ∧ n = Some (function_name tc))
  | _, _ => false
  end.

(** A history whose first message is a ToolMessage. *)
Definition starts_with_tool (l : list Message) : bool :=
  match l with
  | m :: _ => is_tool_message m
  | [] => false
  end.

(** The answers on which the loop breaks: anything but an assistant message
    whose [tool_calls] is not [None]. *)
Definition ends_loop (m : Message) : bool :=
  match m with
  | AssistantMessage _ (Some _) => false
  | _ => true
  end.

(** Tool rounds, then one answer that ends the loop. *)
Fixpoint rounds_then_final (l : list Message) : bool :=
  match l with
  | [final] => ends_loop final
  | asked :: answered :: rest =>
      is_tool_round asked answered && rounds_then_final rest
  | [] => false
  end.

(** Every handler run comes right after an adapter call; [after_llm] tells
    whether the event before [l] is one. *)
Fixpoint one_tool_per_call (after_llm : bool) (l : list event) : bool :=
  match l with
  | [] => true
  | LlmCall _ :: rest => one_tool_per_call true rest
  | ToolRun _ _ :: rest => after_llm && one_tool_per_call false rest
  end.

End Agent.
End agent.

(** ** utils.py: the tool schemas *)

Module utils.

(** What pydantic's [model_json_schema()] hands to [parse_tool_schema]:
    ['title'] and ['properties'] are always there, ['description'] only
    when the tool class has a docstring.  Each property is itself a
    dictionary. *)
Record tool_json_schema : Type := mkSchema {
    ts_description : option string;
    ts_title : string;
    ts_properties : dict (dict json)
  }.

(** Lines 277-278: [if 'default' in value: del value['default']]. *)
Definition remove_default (value : dict json) : dict json :=
  match dict_get value "default" with
  | Some _ => dict_del value "default"
  | None => value
  end.

(** [parse_tool_schema].  The loop of lines 276-278 deletes inside the
    property dictionaries of its argument, and the result shares them: the
    function gives back the parsed schema and its argument as the call
    leaves it. *)
Definition parse_tool_schema (tool_schema : tool_json_schema)
    : outcome json * tool_json_schema :=
  match ts_description tool_schema with
  | None => (Raised (KeyError "description"), tool_schema)
  | Some description =>
    let title := ts_title tool_schema in
    let properties :=
      map (λ pv : string * dict json, (pv.1, remove_default pv.2))
          (ts_properties tool_schema) in
    let required := map fst properties in
    (Returned
       (JObj [("type", JStr "function");
              ("function",
               JObj [("name", JStr title);
                     ("description", JStr description);
                     ("parameters",
                      JObj [("type", JStr "object");
                            ("properties",
                             JObj (map (λ pv : string * dict json,
                                          (pv.1, JObj pv.2)) properties));
                            ("required", JArr (map JStr required));
                            ("additionalProperties", JBool false)]);
                     ("strict", JBool true)])]),
     mkSchema (Some description) title properties)
  end.

(** *** [highlight_code_helper] and [highlight_code] (lines 26-74) *)

Section Highlight.

(** [highlight(code, PythonLexer(), Terminal256Formatter(style=colorscheme,
    background='dark'))] of the pygments library, as a function of the code
    and of the name of the style: the code with terminal colour sequences.
    The call is taken to return, which it does for a style pygments knows. *)
Variable highlight : string → string → string.

(** [l[i]] for the two subscripts of line 46.  Both are in range there:
    [split] always gives a first piece, and a second one when the separator
    occurs, which the test of line 45 has checked. *)
Definition piece (l : list string) (i : nat) : string :=
  default EmptyString (l !! i).

(** [highlight_code_helper]: the first block that opens with a python fence
    is replaced by its highlighted code.  [start_idx == end_idx == -1] is
    Python's chained comparison.  When the fence is not closed, [end_idx]
    is -1 and the tail [text[end_idx + 3:]] is [text[2:]]. *)
Definition highlight_code_helper (text colorscheme : string) : string :=
  let start_idx := find "```python" text 0 in
  let end_idx := find "```" text (start_idx + 1) in
  if bool_decide (start_idx = end_idx ∧ end_idx = (-1)%Z) then text
  else
    let code :=
      if contains "```python" text then
        highlight (piece (split "```" (piece (split "```python" text) 1)) 0)
                  colorscheme
      else EmptyString in
    slice_to text start_idx +:+ code +:+ slice_from text (end_idx + 3).

(** Lines 71-72, [while '```python' in out: out = highlight_code_helper(out,
    colorscheme)], with [fuel] passes through the loop. *)
Fixpoint highlight_loop (fuel : nat) (out colorscheme : string)
    : option string :=
  if contains "```python" out then
    match fuel with
    | O => None
    | S fuel' =>
        highlight_loop fuel' (highlight_code_helper out colorscheme) colorscheme
    end
  else Some out.

(** [highlight_code]; [None] when the loop has not ended within [fuel]
    passes. *)
Definition highlight_code (fuel : nat) (text colorscheme : string)
    : option string :=
  if negb (contains "```python" text) then Some text
  else highlight_loop fuel (highlight_code_helper text colorscheme) colorscheme.

End Highlight.

Section SaveTools.

Context {World : Type}.

(** [yaml.dump(data, default_flow_style=False, sort_keys=False)], from
    the PyYAML library. *)
Variable yaml_dump : json → string.

(** What [save_tools_to_yaml] can reach: the registry it is given (by
    reference), the files, and the terminal.  The file is taken to be
    writable. *)
Record store : Type := mkStore {
    registry : dict (Tool World);
    files : gmap string string;
    console : list string
  }.

(** [save_tools_to_yaml(tools, filename)], [tools] being the registry of
    the store. *)
Definition save_tools_to_yaml (filename : string) (st : store)
    : list json * store :=
  let tools_list := map schema (dict_values (registry st)) in
  let data := JObj [("tools", JArr tools_list)] in
  (tools_list,
   mkStore (registry st)
           (<[filename := yaml_dump data]> (files st))
           (console st ++ ["Saved " +:+ filename +:+ nl])).

(** [yaml.safe_load], from the PyYAML library: the document as a tree
    ([JNull], Python's [None], for an empty file) or the parser's
    exception. *)
Variable yaml_safe_load : string → outcome json.

(** [data[key]] for a string [key]. *)
Definition subscript (data : json) (key : string) : outcome json :=
  match data with
  | JObj fields =>
      match dict_get fields key with
      | Some v => Returned v
      | None => Raised (KeyError key)
      end
  | JArr _ => Raised (TypeError "list indices must be integers or slices, not str")
  | JStr _ => Raised (TypeError "string indices must be integers, not 'str'")
  | JNull => Raised (TypeError "'NoneType' object is not subscriptable")
  | JBool _ => Raised (TypeError "'bool' object is not subscriptable")
  | JNum _ => Raised (TypeError "'int' object is not subscriptable")
  end.

(** [item['function']['name']] as a dictionary key.  A list or a dictionary
    there cannot be hashed; a number, a boolean or [None] can, and would be
    the key: the dictionaries of the model have string keys only, and the
    model has no answer then ([None]). *)
Definition function_name_of (item : json) : option (outcome string) :=
  match subscript item "function" with
  | Returned f =>
      match subscript f "name" with
      | Returned (JStr n) => Some (Returned n)
      | Returned (JArr _) => Some (Raised (TypeError "unhashable type: 'list'"))
      | Returned (JObj _) => Some (Raised (TypeError "unhashable type: 'dict'"))
      | Returned _ => None
      | Raised e => Some (Raised e)
      | Unfinished => Some Unfinished
      end
  | Raised e => Some (Raised e)
  | Unfinished => Some Unfinished
  end.

(** The comprehension [{item['function']['name']: item for item in items}],
    from the dictionary [acc] built so far. *)
Fixpoint index_by_name (acc : dict json) (items : list json)
    : option (outcome (dict json)) :=
  match items with
  | [] => Some (Returned acc)
  | item :: rest =>
      match function_name_of item with
      | Some (Returned n) => index_by_name (dict_set acc n item) rest
      | other =>
          match other with
          | Some (Raised e) => Some (Raised e)
          | Some _ => Some Unfinished
          | None => None
          end
      end
  end.

(** The same comprehension over [data[key]], whatever it is: the items of a
    list; the keys of a dictionary or the characters of a string, which are
    strings and cannot be indexed with 'function'; nothing to iterate in
    the other values. *)
Definition index_items (value : json) : option (outcome (dict json)) :=
  match value with
  | JArr items => index_by_name [] items
  | JObj [] | JStr EmptyString => Some (Returned [])
  | JObj (_ :: _) | JStr (String _ _) =>
      Some (Raised (TypeError "string indices must be integers, not 'str'"))
  | JNull => Some (Raised (TypeError "'NoneType' object is not iterable"))
  | JBool _ => Some (Raised (TypeError "'bool' object is not iterable"))
  | JNum _ => Some (Raised (TypeError "'int' object is not iterable"))
  end.

(** [setup_and_load_yaml(filepath, key)]: a file that is not there is
    created empty first. *)
Definition setup_and_load_yaml (filepath key : string) (st : store)
    : option (outcome (dict json)) * store :=
  let st :=
    match files st !! filepath with
    | Some _ => st
    | None =>
        mkStore (registry st) (<[filepath := EmptyString]> (files st))
                (console st)
    end in
  match yaml_safe_load (default EmptyString (files st !! filepath)) with
  | Returned JNull => (Some (Returned []), st)
  | Returned data =>
      match subscript data key with
      | Returned value => (index_items value, st)
      | Raised e => (Some (Raised e), st)
      | Unfinished => (Some Unfinished, st)
      end
  | Raised e => (Some (Raised e), st)
  | Unfinished => (Some Unfinished, st)
  end.

(** The loop of lines 241-243 of [setup_tools], over the keys of [tool_args]
    still to come: [del tool_args[param_name]] for a name the tool object
    does not accept.  A dictionary that shrinks while it is iterated makes
    the iterator raise RuntimeError at its next step, the step after the
    last key included. *)
Fixpoint delete_unaccepted (keys expected : list string)
    (tool_args : dict (dict json)) : outcome unit * dict (dict json) :=
  match keys with
  | [] => (Returned tt, tool_args)
  | param_name :: rest =>
      if decide (param_name ∈ expected) then
        delete_unaccepted rest expected tool_args
      else
        (Raised (RaisedException "RuntimeError"
                   "dictionary changed size during iteration"),
         dict_del tool_args param_name)
  end.

(** Lines 224-256 of [setup_tools], for one tool class [node_name] of a
    module, given what reflection and pydantic find: [tool_code], the class
    unparsed; [schema], the result of [tool_constructor.model_json_schema()];
    [constructed], how [tool_constructor] with its arguments ends;
    [returns_str], whether the return annotation of the tool object [is
    str]; [obj_repr], the tool object in an f-string.  [tool_args] is the
    ['properties'] dictionary of the schema itself, not a copy: what
    [parse_tool_schema] deletes in the schema is gone from [Tool.params]
    too.  The result is the registry [tools] with the new entry, and the
    schema as the call leaves it. *)
Definition setup_tool (node_name tool_code : string)
    (schema : tool_json_schema) (constructed : outcome (Callable World))
    (returns_str : bool) (obj_repr : string) (tools : dict (Tool World))
    : outcome (dict (Tool World)) * tool_json_schema :=
  match constructed with
  | Returned tool_obj =>
    let expected_tool_args := parameters tool_obj in
    match delete_unaccepted (dict_keys (ts_properties schema))
                            expected_tool_args (ts_properties schema) with
    | (Returned _, tool_args) =>
      if negb returns_str then
        (Raised (RaisedException "AssertionError"
                   ("Tool " +:+ obj_repr +:+ " must return a string")),
         schema)
      else
        match ts_description schema with
        | None => (Raised (KeyError "description"), schema)
        | Some description =>
          match parse_tool_schema schema with
          | (Returned parsed, schema') =>
              (Returned
                 (dict_set tools node_name
                    (mkTool node_name tool_code description
                            (ts_properties schema') tool_obj parsed)),
               schema')
          | (Raised e, schema') => (Raised e, schema')
          | (Unfinished, schema') => (Unfinished, schema')
          end
        end
    | (Raised e, tool_args) =>
        (Raised e,
         mkSchema (ts_description schema) (ts_title schema) tool_args)
    | (Unfinished, tool_args) =>
        (Unfinished,
         mkSchema (ts_description schema) (ts_title schema) tool_args)
    end
  | Raised e => (Raised e, schema)
  | Unfinished => (Unfinished, schema)
  end.

End SaveTools.

End utils.

(** ** llm/ollama_api.py *)

Module ollama_api.

(** The module's own message classes (they differ from gc_dataclasses in
    the fields of ToolCall and ToolMessage). *)
Record ToolCall : Type := mkToolCall {
    tool_call_id : string;
    tool_type : string;
    function_name : string;
    function_args : gmap string pyval
  }.

Inductive Message : Type :=
| SystemMessage (content : string)
| UserMessage (content : string)
| AssistantMessage (content : string) (tool_calls : option (list ToolCall))
| ToolMessage (content : option string) (tool_call_id : string).

(** A tool call as the API writes it:
    [{'id', 'type', 'function': {'name', 'arguments'}}]. *)
Record api_tool_call : Type := mkApiCall {
    id : string;
    type_ : string;
    fn_name : string;
    fn_arguments : string
  }.

(** The values of a message dictionary. *)
Inductive field : Type :=
| FStr (s : string)
| FCalls (l : list api_tool_call).

(** [response['message']]: its ['content'], and its ['tool_calls'] when the
    key is there and not [None]. *)
Record completion : Type := mkCompletion {
    completion_content : string;
    completion_tool_calls : option (list api_tool_call)
  }.

(** How [client.chat] ends. *)
Inductive chat_end : Type :=
| Response (message : completion)
| ResponseError (error : string)
| OtherError (e : exn).

Definition isinstance_SystemMessage (m : Message) : bool :=
  match m with SystemMessage _ => true | _ => false end.
Definition isinstance_User_or_Tool (m : Message) : bool :=
  match m with UserMessage _ | ToolMessage _ _ => true | _ => false end.
Definition isinstance_AssistantMessage (m : Message) : bool :=
  match m with AssistantMessage _ _ => true | _ => false end.

Section Chat.

Context {World : Type}.

(** [client.chat(messages=input_messages, model=model, ...)] *)
Variable client_chat : World → list (dict field) → chat_end * World.
Variable json_dumps : gmap string pyval → string.
(** [json.loads] raises on text that is not JSON. *)
Variable json_loads : string → outcome (gmap string pyval).

Definition toolcall_to_dict (tool_call : ToolCall) : api_tool_call :=
  mkApiCall (tool_call_id tool_call) "function"
            (function_name tool_call)
            (json_dumps (function_args tool_call)).

(** [message_to_dict]: the fields in declaration order, those that are
    [None] left out. *)
Definition message_to_dict (message : Message) : dict field :=
  match message with
  | SystemMessage c => [("content", FStr c); ("role", FStr "system")]
  | UserMessage c => [("content", FStr c); ("role", FStr "user")]
  | AssistantMessage c None =>
      [("content", FStr c); ("role", FStr "assistant")]
  | AssistantMessage c (Some value) =>
      [("content", FStr c);
       ("tool_calls", FCalls (map toolcall_to_dict value));
       ("role", FStr "assistant")]
  | ToolMessage None i => [("tool_call_id", FStr i); ("role", FStr "tool")]
  | ToolMessage (Some c) i =>
      [("content", FStr c); ("tool_call_id", FStr i);
       ("role", FStr "tool")]
  end.

(** The list comprehension of [message_from_api_response]. *)
Fixpoint parse_tool_calls (l : list api_tool_call)
    : outcome (list ToolCall) :=
  match l with
  | [] => Returned []
  | tc :: rest =>
    match json_loads (fn_arguments tc) with
    | Returned args =>
      match parse_tool_calls rest with
      | Returned calls =>
          Returned (mkToolCall (id tc) (type_ tc) (fn_name tc) args :: calls)
      | Raised e => Raised e
      | Unfinished => Unfinished
      end
    | Raised e => Raised e
    | Unfinished => Unfinished
    end
  end.

Definition message_from_api_response (c : completion) : outcome Message :=
  match completion_tool_calls c with
  | None => Returned (AssistantMessage (completion_content c) None)
  | Some l =>
    match parse_tool_calls l with
    | Returned calls =>
        Returned (AssistantMessage (completion_content c) (Some calls))
    | Raised e => Raised e
    | Unfinished => Unfinished
    end
  end.

(** The validation loop of lines 169-175 over
    [enumerate(messages[start_idx:])], from index [idx] on: the exception
    it raises, if any. *)
Fixpoint check_turns (idx : nat) (l : list Message) : option exn :=
  match l with
  | [] => None
  | msg :: rest =>
    if (idx mod 2 =? 0)%nat then
      if negb (isinstance_User_or_Tool msg) then
        Some (ValueError "Expected UserMessage or ToolMessage")
      else check_turns (S idx) rest
    else
      if negb (isinstance_AssistantMessage msg) then
        Some (ValueError "Expected AssistantMessage")
      else check_turns (S idx) rest
  end.

(** The precondition in words: [messages] once an optional leading
    SystemMessage is skipped, and the strict alternation of what is
    left, UserMessage or ToolMessage at the even offsets and
    AssistantMessage at the odd ones. *)
Definition after_system (messages : list Message) : list Message :=
  match messages with
  | SystemMessage _ :: rest => rest
  | _ => messages
  end.

Definition strict_alternation (l : list Message) : Prop :=
  ∀ i msg, l !! i = Some msg →
    if Nat.even i then isinstance_User_or_Tool msg = true
    else isinstance_AssistantMessage msg = true.

(** The external world and the requests that reached the backend. *)
Record backend : Type := mkBackend {
    bworld : World;
    requests : list (list (dict field))
  }.

(** [chat_func], the function [start_chat] returns. *)
Definition chat_func (messages : list Message) (b : backend)
    : outcome Message * backend :=
  match messages with
  | [] => (Raised (ValueError "Messages list cannot be empty"), b)
  | m0 :: _ =>
    let start_idx := if isinstance_SystemMessage m0 then 1 else 0 in
    match check_turns 0 (drop start_idx messages) with
    | Some e => (Raised e, b)
    | None =>
      let input_messages := map message_to_dict messages in
      let '(r, w) := client_chat (bworld b) input_messages in
      let b' := mkBackend w (requests b ++ [input_messages]) in
      match r with
      | Response c => (message_from_api_response c, b')
      | ResponseError error =>
          (Returned (UserMessage
             ("There was an API error. Please try again.. " +:+ error)),
           b')
      | OtherError e => (Raised e, b')
      end
    end
  end.

(** The tool-call list that [dict_to_message] builds from the value under
    'tool_calls': the same comprehension as in [message_from_api_response].
    Iterating a string gives its characters, and indexing one with 'id'
    raises. *)
Definition tool_calls_of_field (value : field)
    : outcome (option (list ToolCall)) :=
  match value with
  | FCalls l =>
      match parse_tool_calls l with
      | Returned calls => Returned (Some calls)
      | Raised e => Raised e
      | Unfinished => Unfinished
      end
  | FStr EmptyString => Returned (Some [])
  | FStr _ => Raised (TypeError "string indices must be integers, not 'str'")
  end.

(** [message_dict['content']] and the like, for a field that a message
    keeps as a string.  Python would put a list found there into the
    message as it is; [Message] has no room for it, and the model has no
    answer then ([None]). *)
Definition string_item (message_dict : dict field) (key : string)
    : option (outcome string) :=
  match dict_get message_dict key with
  | Some (FStr s) => Some (Returned s)
  | Some (FCalls _) => None
  | None => Some (Raised (KeyError key))
  end.

(** [dict_to_message] *)
Definition dict_to_message (message_dict : dict field)
    : option (outcome Message) :=
  match dict_get message_dict "role" with
  | Some (FStr role) =>
    if decide (role = "system") then
      match string_item message_dict "content" with
      | Some (Returned c) => Some (Returned (SystemMessage c))
      | Some (Raised e) => Some (Raised e)
      | Some Unfinished => Some Unfinished
      | None => None
      end
    else if decide (role = "user") then
      match string_item message_dict "content" with
      | Some (Returned c) => Some (Returned (UserMessage c))
      | Some (Raised e) => Some (Raised e)
      | Some Unfinished => Some Unfinished
      | None => None
      end
    else if decide (role = "assistant") then
      let tool_calls :=
        match dict_get message_dict "tool_calls" with
        | Some value => tool_calls_of_field value
        | None => Returned None
        end in
      match tool_calls with
      | Returned tool_calls =>
        match string_item message_dict "content" with
        | Some (Returned c) => Some (Returned (AssistantMessage c tool_calls))
        | Some (Raised e) => Some (Raised e)
        | Some Unfinished => Some Unfinished
        | None => None
        end
      | Raised e => Some (Raised e)
      | Unfinished => Some Unfinished
      end
    else if decide (role = "tool") then
      match string_item message_dict "content" with
      | Some (Returned c) =>
        match string_item message_dict "tool_call_id" with
        | Some (Returned i) => Some (Returned (ToolMessage (Some c) i))
        | Some (Raised e) => Some (Raised e)
        | Some Unfinished => Some Unfinished
        | None => None
        end
      | Some (Raised e) => Some (Raised e)
      | Some Unfinished => Some Unfinished
      | None => None
      end
    else Some (Raised (ValueError ("Unknown message role: " +:+ role)))
  | Some (FCalls _) =>
      Some (Raised (TypeError ("can only concatenate str (not " +:+ dquote
                               +:+ "list" +:+ dquote +:+ ") to str")))
  | None =>
      Some (Raised (TypeError ("can only concatenate str (not " +:+ dquote
                               +:+ "NoneType" +:+ dquote +:+ ") to str")))
  end.

(** A message as [toolcall_to_dict] sends it: every tool call of type
    'function'. *)
Definition as_function_calls (m : Message) : Message :=
  match m with
  | AssistantMessage c (Some calls) =>
      AssistantMessage c
        (Some (map (λ tc, mkToolCall (tool_call_id tc) "function"
                                     (function_name tc) (function_args tc))
                   calls))
  | _ => m
  end.

End Chat.

End ollama_api.

(** ** utils.py, continued: the completion client (it needs ollama_api) *)

Module utils_clients.
Import ollama_api.
Section Completion.

Context {World : Type}.
Variable client_chat : World → list (dict field) → chat_end * World.
Variable json_dumps : gmap string pyval → string.
Variable json_loads : string → outcome (gmap string pyval).

(** [response.content] *)
Definition content_of (response : Message) : pyval :=
  match response with
  | SystemMessage c | UserMessage c | AssistantMessage c _ => PyStr c
  | ToolMessage (Some c) _ => PyStr c
  | ToolMessage None _ => PyNone
  end.

(** [chat_complete], the function [build_llm_completion_client] returns for
    a model whose name does not contain 'gpt' ([local_model] is [True] and
    [completion] is the chat function of ollama_api): the whole body is
    inside [try: ... except Exception: return '']. *)
Definition chat_complete (prompt : string) (b : backend)
    : outcome pyval * backend :=
  let messages :=
    [SystemMessage "You are a helpful assistant."; UserMessage prompt] in
  match chat_func client_chat json_dumps json_loads messages b with
  | (Returned response, b') => (Returned (content_of response), b')
  | (Raised _, b') => (Returned (PyStr EmptyString), b')
  | (Unfinished, b') => (Unfinished, b')
  end.

End Completion.
End utils_clients.

(** ** Stub adapters and a small registry

    The stubs of section 8 of the specification: an adapter that answers
    from a script, one answer per call (the external world is the number of
    calls made so far), and tools that echo, fail, or report the
    'user_prompt' they were given. *)

Module scenario.
Import agent.

Definition scripted (script : list Message)
    : nat → list Message → outcome Message * nat :=
  λ w _,
    (match script !! w with
     | Some m => Returned m
     | None => Returned (AssistantMessage "done" None)
     end, S w).

Definition echo : Tool nat :=
  mkTool "echo" EmptyString "Repeat the text." [] 
    (mkCallable ["text"]
       (λ w kw, (match kw !! "text" with
                 | Some (PyStr t) => Returned t
                 | _ => Returned EmptyString
                 end, w)))
    JNull.

Definition failing : Tool nat :=
  mkTool "failing" EmptyString "Always fails." []
    (mkCallable ["path"]
       (λ w _, (Raised (RaisedException "RuntimeError" "boom"), w)))
    JNull.

Definition prompted : Tool nat :=
  mkTool "prompted" EmptyString "Reports the user_prompt keyword it receives." []
    (mkCallable ["user_prompt"; "query"]
       (λ w kw, (match kw !! "user_prompt" with
                 | Some (PyStr t) => Returned t
                 | Some _ => Returned "user_prompt is not a string"
                 | None =>
                     Raised (TypeError "missing 1 required positional argument: 'user_prompt'")
                 end, w)))
    JNull.

Definition registry : dict (Tool nat) :=
  [("echo", echo); ("failing", failing); ("prompted", prompted)].

Definition render : string → string → option string := λ text _, Some text.

(** A stand-in for the pygments call: the code between two marks that name
    the style. *)
Definition pygments : string → string → string :=
  λ code style, "<" +:+ style +:+ ">" +:+ code +:+ "</" +:+ style +:+ ">".
Definition repr_args : gmap string pyval → string := λ _, "{...}".

(** A fresh agent: empty session, nothing printed, no adapter call made. *)
Definition fresh : @state nat :=
  mkState (mkConfig "monokai" false) registry [] [] 0 [] [].

(** The same agent as [dispatch] leaves it on entering the loop for the
    prompt 'hi'. *)
Definition asked : @state nat :=
  set_dispatch_messages [UserMessage (question_header +:+ "hi")] fresh.

Definition echo_call : ToolCall :=
  mkToolCall "echo" {[ "text" := PyStr "hello"; "volume" := PyInt 11 ]}
             (Some "call_1") (Some "function").
Definition failing_call : ToolCall :=
  mkToolCall "failing" ∅ (Some "call_2") (Some "function").
Definition unknown_call : ToolCall :=
  mkToolCall "does_not_exist" ∅ (Some "call_3") (Some "function").
Definition injected_call : ToolCall :=
  mkToolCall "prompted"
             {[ "user_prompt" := PyStr "injected"; "query" := PyStr "x" ]}
             (Some "call_4") (Some "function").
Definition omitted_call : ToolCall :=
  mkToolCall "prompted" {[ "query" := PyStr "x" ]}
             (Some "call_5") (Some "function").

Definition final_answer : Message := AssistantMessage "Hello" None.

(** The scripts. *)
Definition two_calls : nat → list Message → outcome Message * nat :=
  scripted [AssistantMessage EmptyString (Some [echo_call; failing_call]); final_answer].
Definition raising : nat → list Message → outcome Message * nat :=
  scripted [AssistantMessage EmptyString (Some [failing_call]); final_answer].
Definition astray : nat → list Message → outcome Message * nat :=
  scripted [AssistantMessage EmptyString (Some [unknown_call]); final_answer].
Definition injecting : nat → list Message → outcome Message * nat :=
  scripted [AssistantMessage EmptyString (Some [injected_call]); final_answer].
Definition omitting : nat → list Message → outcome Message * nat :=
  scripted [AssistantMessage EmptyString (Some [omitted_call]); final_answer].
Definition answering : nat → list Message → outcome Message * nat :=
  scripted [final_answer].

(** An answer with a block of code between two fences. *)
Definition coded_answer : Message :=
  AssistantMessage ("Try:```python" +:+ nl +:+ "x = 1" +:+ nl +:+ "```ok")
                   None.
Definition coding : nat → list Message → outcome Message * nat :=
  scripted [coded_answer].

(** An answer whose fence is never closed. *)
Definition open_answer : Message :=
  AssistantMessage ("See" +:+ "```python" +:+ " x = 1") None.
Definition trailing : nat → list Message → outcome Message * nat :=
  scripted [open_answer].

(** The schema pydantic gives for a tool with one field that has a default,
    and a store whose registry holds two tools with schemas. *)
Definition echo_json_schema : utils.tool_json_schema :=
  utils.mkSchema (Some "Repeat the text.") "echo"
    [("text", [("default", JStr "hi"); ("title", JStr "Text");
               ("type", JStr "string")])].

Definition shelf : @utils.store nat :=
  utils.mkStore
    [("echo", mkTool "echo" EmptyString "Repeat the text." [] (obj echo)
                (JStr "schema of echo"));
     ("failing", mkTool "failing" EmptyString "Always fails." [] (obj failing)
                   (JStr "schema of failing"))]
    ∅ [].

Definition flat_dump : json → string := λ _, "tools: ...".

(** A backend that is down, for the chat function of ollama_api. *)
Definition down : unit → list (dict ollama_api.field)
    → ollama_api.chat_end * unit :=
  λ w _, (ollama_api.ResponseError "connection refused", w).
Definition dumps : gmap string pyval → string := λ _, "{}".
Definition loads : string → outcome (gmap string pyval) := λ _, Returned ∅.
Definition idle : ollama_api.backend := ollama_api.mkBackend tt [].

Definition one_question : list ollama_api.Message :=
  [ollama_api.SystemMessage "Be brief."; ollama_api.UserMessage "Why?"].
Definition two_questions : list ollama_api.Message :=
  [ollama_api.UserMessage "Why?"; ollama_api.UserMessage "Why not?"].

(** An adapter whose only answer has an empty list of tool calls. *)
Definition empty_calls : nat → list Message → outcome Message * nat :=
  scripted [AssistantMessage "hello" (Some [])].

(** A message of ollama_api with one tool call, of a type other than
    'function', and the tool calls of an API answer: one whose arguments
    are JSON for [picky_loads], one whose are not. *)
Definition asking : ollama_api.Message :=
  ollama_api.AssistantMessage "Let me look."
    (Some [ollama_api.mkToolCall "call_9" "custom" "echo" ∅]).
Definition picky_loads : string → outcome (gmap string pyval) :=
  λ text, if decide (text = "{}") then Returned ∅
          else Raised (ValueError "Expecting value").
Definition good_call : ollama_api.api_tool_call :=
  ollama_api.mkApiCall "call_1" "function" "echo" "{}".
Definition bad_call : ollama_api.api_tool_call :=
  ollama_api.mkApiCall "call_2" "function" "echo" "{text:".

(** A backend that answers 'Hi.' without tool calls. *)
Definition polite : unit → list (dict ollama_api.field)
    → ollama_api.chat_end * unit :=
  λ w _, (ollama_api.Response (ollama_api.mkCompletion "Hi." None), w).

(** Registering the class of [echo] from its pydantic schema, and from a
    schema that also advertises a 'volume' the handler does not take. *)
Definition loud_json_schema : utils.tool_json_schema :=
  utils.mkSchema (Some "Repeat the text.") "echo"
    [("text", [("type", JStr "string")]);
     ("volume", [("default", JNum 11); ("type", JStr "integer")])].

Definition registered_echo : dict (Tool nat) :=
  match (utils.setup_tool "echo" "class echo: ..." echo_json_schema
           (Returned (obj echo)) true "<echo object>" []).1 with
  | Returned tools => tools
  | _ => []
  end.

(** A store whose registry is the one just built, and a YAML library that
    knows one document. *)
Definition library : @utils.store nat := utils.mkStore registered_echo ∅ [].
Definition library_document : json :=
  JObj [("tools", JArr (map schema (dict_values registered_echo)))].
Definition flat_load : string → outcome json := λ _, Returned library_document.

End scenario.

(** * Properties *)

(** ** Argument reconciliation *)

Section reconcile_facts.
Import reconcile.

Implicit Types (P : list string) (A m : gmap string pyval) (k : string).

(** The first loop keeps exactly the items whose key the handler accepts. *)
Lemma filter_incorrect_spec P A :
  filter_incorrect P A = filter (λ kv, kv.1 ∈ P) A.
Proof.
  unfold filter_incorrect.
  apply (map_fold_weak_ind (λ r m, r = filter (λ kv, kv.1 ∈ P) m)).
  - by rewrite map_filter_empty.
  - intros i x m r Hi ->. unfold filter_step. case_decide.
    + by rewrite map_filter_insert_True.
    + rewrite map_filter_insert_False by done. by rewrite delete_id.
Qed.

Lemma lookup_filter_incorrect P A k :
  filter_incorrect P A !! k = if decide (k ∈ P) then A !! k else None.
Proof.
  rewrite filter_incorrect_spec. case_decide as Hk.
  - destruct (A !! k) as [v|] eqn:E.
    + by apply map_lookup_filter_Some.
    + apply map_lookup_filter_None. left. done.
  - apply map_lookup_filter_None. right. intros v _. done.
Qed.

Lemma lookup_fill_step m p k :
  fill_step m p !! k =
    match m !! k with
    | Some v => Some v
    | None => if decide (k = p ∧ k ≠ "user_prompt") then Some PyNone
              else None
    end.
Proof.
  unfold fill_step. destruct (decide (p = "user_prompt")) as [Hp|Hp].
  - destruct (m !! k); [done|].
    destruct (decide (k = p ∧ k ≠ "user_prompt")); [|done]. naive_solver.
  - destruct (m !! p) eqn:Ep.
    + destruct (m !! k) eqn:Ek; [done|].
      destruct (decide (k = p ∧ k ≠ "user_prompt")); [|done].
      naive_solver.
    + destruct (decide (p = k)) as [->|Hne].
      * rewrite lookup_insert_eq, Ep.
        destruct (decide (k = k ∧ k ≠ "user_prompt")); [done|].
        naive_solver.
      * rewrite lookup_insert_ne by done. destruct (m !! k); [done|].
        destruct (decide (k = p ∧ k ≠ "user_prompt")); [|done].
        naive_solver.
Qed.

(** The second loop leaves what is there and adds [None] under the accepted
    names that are missing, 'user_prompt' excepted. *)
Lemma lookup_add_missing P m k :
  add_missing P m !! k =
    match m !! k with
    | Some v => Some v
    | None => if decide (k ∈ P ∧ k ≠ "user_prompt") then Some PyNone
              else None
    end.
Proof.
  unfold add_missing. revert m.
  induction P as [|p P IH]; intros m; cbn [foldl].
  - destruct (m !! k); [done|].
    destruct (decide (k ∈ [] ∧ k ≠ "user_prompt")); [|done]. set_solver.
  - rewrite IH, lookup_fill_step. destruct (m !! k); [done|].
    destruct (decide (k = p ∧ k ≠ "user_prompt"));
      destruct (decide (k ∈ P ∧ k ≠ "user_prompt"));
      destruct (decide (k ∈ p :: P ∧ k ≠ "user_prompt"));
      try done; exfalso; set_solver.
Qed.

Lemma lookup_effective_args P A k :
  effective_args P A !! k =
    if decide (k ∈ P) then
      match A !! k with
      | Some v => Some v
      | None => if decide (k = "user_prompt") then None else Some PyNone
      end
    else None.
Proof.
  unfold effective_args.
  rewrite lookup_add_missing, lookup_filter_incorrect.
  destruct (decide (k ∈ P)) as [Hk|Hk].
  - destruct (A !! k); [done|].
    destruct (decide (k ∈ P ∧ k ≠ "user_prompt"));
      destruct (decide (k = "user_prompt")); try done; naive_solver.
  - destruct (decide (k ∈ P ∧ k ≠ "user_prompt")); [|done]. naive_solver.
Qed.

(** C4: for every known tool with handler-accepted parameter names [P] and
    every argument mapping [A] provided by the LLM, the keyword arguments
    that [run_tool] builds are [A] restricted to the keys in [P], extended
    with [None] for every key of [P] other than 'user_prompt' that is
    missing from [A]: keys the handler does not accept are dropped, omitted
    parameters are filled absent. *)
Theorem effective_args_reconciled P A :
  effective_args P A = spec_effective_args P A.
Proof.
  apply map_eq. intros k. rewrite lookup_effective_args.
  unfold spec_effective_args. rewrite lookup_union.
  set (absent := filter _ (list_to_set P) : gset string).
  assert (Habs : k ∈ absent ↔ A !! k = None ∧ k ≠ "user_prompt" ∧ k ∈ P).
  { unfold absent.
    rewrite elem_of_filter, elem_of_list_to_set, not_elem_of_dom.
    naive_solver. }
  destruct (filter _ A !! k) as [v|] eqn:Ef.
  - apply map_lookup_filter_Some in Ef as [Ek Hk]. simpl in Hk.
    rewrite Ek, decide_True by done.
    by destruct (gset_to_gmap PyNone absent !! k).
  - apply map_lookup_filter_None in Ef.
    destruct (gset_to_gmap PyNone absent !! k) as [u|] eqn:Eg.
    + apply lookup_gset_to_gmap_Some in Eg as [Hin <-].
      apply Habs in Hin as (Ek & Hu & Hk).
      by rewrite Ek, decide_True, decide_False.
    + apply lookup_gset_to_gmap_None in Eg. rewrite Habs in Eg.
      destruct (decide (k ∈ P)) as [Hk|Hk]; [|done].
      destruct (A !! k) as [v|] eqn:Ek.
      * destruct Ef as [Ef|Ef]; [done|]. by destruct (Ef v).
      * destruct (decide (k = "user_prompt")); [done|]. naive_solver.
Qed.

(** The example of section 8: parameters [{a, b}], arguments
    [{a: 1, c: 99}]. *)
Example effective_args_section8 :
  effective_args ["a"; "b"] {[ "a" := PyInt 1; "c" := PyInt 99 ]}
  = {[ "a" := PyInt 1; "b" := PyNone ]}.
Proof. vm_compute. reflexivity. Qed.

(** X7: the keyword arguments [run_tool] builds always fit the handler's
    signature: every key is an accepted parameter, every accepted parameter
    other than 'user_prompt' is there, a value the LLM gave for an accepted
    parameter is never replaced, and reconciling the result again changes
    nothing. *)
Theorem effective_args_fit_signature P A :
  (∀ k, is_Some (effective_args P A !! k) → k ∈ P) ∧
  (∀ k, k ∈ P → k ≠ "user_prompt" → is_Some (effective_args P A !! k)) ∧
  (∀ k v, k ∈ P → A !! k = Some v → effective_args P A !! k = Some v) ∧
  effective_args P (effective_args P A) = effective_args P A.
Proof.
  split_and!.
  - intros k. rewrite lookup_effective_args.
    destruct (decide (k ∈ P)); [done|]. by intros [? ?].
  - intros k Hk Hu. rewrite lookup_effective_args, decide_True by done.
    destruct (A !! k); [by eexists|]. rewrite decide_False by done. by eexists.
  - intros k v Hk Hv. by rewrite lookup_effective_args, decide_True, Hv.
  - apply map_eq. intros k. rewrite !lookup_effective_args.
    destruct (decide (k ∈ P)); [|done].
    destruct (A !! k); [done|].
    by destruct (decide (k = "user_prompt")).
Qed.

End reconcile_facts.

(** ** Strings: [in] and [replace] *)

Section string_facts.

Implicit Types (c : Ascii.ascii) (s old new : string).

Lemma contains_cons c b s :
  contains (String c EmptyString) (String b s)
  = bool_decide (c = b) || contains (String c EmptyString) s.
Proof.
  cbn. destruct (Ascii.ascii_dec c b) as [->|Hne].
  - rewrite bool_decide_eq_true_2 by done. by destruct s.
  - by rewrite bool_decide_eq_false_2.
Qed.

Lemma contains_nil c : contains (String c EmptyString) EmptyString = false.
Proof. reflexivity. Qed.

Lemma contains_append c s1 s2 :
  contains (String c EmptyString) (s1 +:+ s2)
  = contains (String c EmptyString) s1 || contains (String c EmptyString) s2.
Proof.
  induction s1 as [|b s1 IH].
  - by rewrite contains_nil.
  - change (String b s1 +:+ s2) with (String b (s1 +:+ s2)).
    rewrite !contains_cons, IH. by rewrite orb_assoc.
Qed.

Lemma length_string_drop n s :
  String.length (string_drop n s) = String.length s - n.
Proof.
  revert s. induction n as [|n IH]; intros [|b s]; cbn; auto.
Qed.

(** The characters that are not in [old] are not in its occurrences. *)
Lemma contains_drop_prefix c old s :
  String.prefix old s = true →
  contains (String c EmptyString) old = false →
  contains (String c EmptyString) (string_drop (String.length old) s)
  = contains (String c EmptyString) s.
Proof.
  revert s. induction old as [|a old IH]; intros s Hp Hc.
  - by destruct s.
  - destruct s as [|b s]; [done|]. cbn in Hp.
    destruct (Ascii.ascii_dec a b) as [->|]; [|done].
    rewrite contains_cons in Hc. apply orb_false_iff in Hc as [Hcb Hc].
    cbn [String.length string_drop]. rewrite IH by done.
    by rewrite contains_cons, Hcb.
Qed.

(** [replace] leaves a string without occurrence as it is. *)
Lemma replace_steps_absent steps old new s :
  contains old s = false → replace_steps steps old new s = s.
Proof.
  revert s. induction steps as [|steps IH]; intros [|b s] H; cbn; try done.
  cbn in H. apply orb_false_iff in H as [Hp Hs].
  cbn in Hp. rewrite Hp. by rewrite IH.
Qed.

(** [replace] never removes a character that is not in [old]. *)
Lemma replace_steps_keeps c (steps : nat) old new s :
  old ≠ EmptyString →
  contains (String c EmptyString) old = false →
  (String.length s ≤ steps)%nat →
  contains (String c EmptyString) s = true →
  contains (String c EmptyString) (replace_steps steps old new s) = true.
Proof.
  intros Hold Hc. revert s.
  induction steps as [|steps IH]; intros [|b s] Hlen Hs;
    [by rewrite contains_nil in Hs | cbn in Hlen; lia
    | by rewrite contains_nil in Hs |].
  cbn [replace_steps].
  destruct (String.prefix old (String b s)) eqn:Hp.
  - rewrite contains_append. apply orb_true_iff. right. apply IH.
    + rewrite length_string_drop. cbn in Hlen |- *.
      destruct old; [done|]. cbn. lia.
    + by rewrite contains_drop_prefix.
  - rewrite contains_cons in Hs |- *.
    apply orb_true_iff in Hs as [Hs|Hs]; [by rewrite Hs|].
    rewrite IH; [apply orb_true_r| |done]. cbn in Hlen. lia.
Qed.

(** [split] always gives a first piece, and a second one when the separator
    occurs: the subscripts 0 and 1 of [highlight_code_helper] are in range
    under its test. *)
Lemma split_steps_first steps sep s :
  ∃ a pieces, split_steps steps sep s = a :: pieces.
Proof.
  revert s. induction steps as [|steps IH]; intros [|b s];
    cbn [split_steps]; try by eexists _, _.
  destruct (String.prefix sep (String b s)); [by eexists _, _|].
  destruct (IH s) as (a & pieces & ->). by eexists _, _.
Qed.

Lemma split_second sep s :
  sep ≠ EmptyString → contains sep s = true →
  ∃ a b pieces, split sep s = a :: b :: pieces.
Proof.
  intros Hsep. unfold split.
  assert (∀ (steps : nat) s, (String.length s ≤ steps)%nat →
            contains sep s = true →
            ∃ a b pieces, split_steps steps sep s = a :: b :: pieces) as H;
    [|by apply H].
  clear s. induction steps as [|steps IH]; intros [|b s] Hlen Hc.
  - destruct sep; [done|]. cbn in Hc. discriminate.
  - cbn in Hlen. lia.
  - destruct sep; [done|]. cbn in Hc. discriminate.
  - cbn [split_steps]. cbn [contains] in Hc.
    destruct (String.prefix sep (String b s)) eqn:Hp.
    + destruct (split_steps_first steps sep
                  (string_drop (String.length sep) (String b s)))
        as (a & pieces & ->). by eexists _, _, _.
    + cbn in Hc. destruct (IH s) as (a & b' & pieces & ->); [cbn in Hlen; lia|done|].
      by eexists _, _, _.
Qed.

End string_facts.

(** ** The dispatch loop *)

Section agent_facts.
Import agent.

Context {World : Type}.
Variable llm : World → list Message → outcome Message * World.
Variable highlight_code : string → string → option string.
Variable repr_args : gmap string pyval → string.

Abbreviation state := (@agent.state World).
Abbreviation dispatch_body := (agent.dispatch_body llm repr_args).
Abbreviation dispatch_loop := (agent.dispatch_loop llm repr_args).
Abbreviation dispatch := (agent.dispatch llm repr_args).
Abbreviation run_tool := (agent.run_tool repr_args).

Implicit Types (s : state) (r : Message) (tc : ToolCall) (w : World).

#[local] Existing Instances agent.M_ret agent.M_bind.
#[local] Arguments agent.context_of : simpl never.
#[local] Arguments reconcile.add_missing : simpl never.
#[local] Arguments reconcile.filter_incorrect : simpl never.
#[local] Arguments String.append : simpl never.

(** *** Sequencing *)

Lemma bind_Returned {A B} (m : M A) (f : A → M B) s a s' :
  m s = (Returned a, s') → (m ≫= f) s = f a s'.
Proof. unfold mbind, M_bind. by intros ->. Qed.

Lemma bind_Raised {A B} (m : M A) (f : A → M B) s e s' :
  m s = (Raised e, s') → (m ≫= f) s = (Raised e, s').
Proof. unfold mbind, M_bind. by intros ->. Qed.

Lemma bind_Unfinished {A B} (m : M A) (f : A → M B) s s' :
  m s = (Unfinished, s') → (m ≫= f) s = (Unfinished, s').
Proof. unfold mbind, M_bind. by intros ->. Qed.

(** *** What a run leaves alone, and how the trace grows

    No statement of the loop touches the configuration, the registry or the
    session history; the working set and the trace only ever get longer. *)

Local Notation "'grows' m" :=
  (∀ s, config (m s).2 = config s ∧ tools (m s).2 = tools s ∧
        messages (m s).2 = messages s ∧
        (∃ more, dispatch_messages (m s).2 = dispatch_messages s ++ more) ∧
        ∃ more, trace (m s).2 = trace s ++ more)
  (at level 10, m at level 9, only parsing).

Lemma grows_ret {A} (a : A) : grows (mret a : M A).
Proof. intros s. split_and!; [done..| |]; exists []; by rewrite app_nil_r. Qed.

Lemma grows_raise {A} e : grows (raise e : M A).
Proof. intros s. split_and!; [done..| |]; exists []; by rewrite app_nil_r. Qed.

Lemma grows_unfinished {A} : grows (unfinished : M A).
Proof. intros s. split_and!; [done..| |]; exists []; by rewrite app_nil_r. Qed.

Lemma grows_get : grows get.
Proof. intros s. split_and!; [done..| |]; exists []; by rewrite app_nil_r. Qed.

Lemma grows_print_line line : grows (print_line line).
Proof. intros s. split_and!; [done..| |]; exists []; by rewrite app_nil_r. Qed.

Lemma grows_append_dispatch m : grows (append_dispatch m).
Proof.
  intros s. split_and!; [done..| |]; [by eexists|].
  exists []. by rewrite app_nil_r.
Qed.

Lemma grows_call_llm ctx : grows (call_llm llm ctx).
Proof.
  intros s. unfold call_llm. destruct (llm (world s) ctx) as [o w].
  split_and!; [done..| |]; [|by eexists]. exists []. by rewrite app_nil_r.
Qed.

Lemma grows_call_tool tool args : grows (call_tool tool args).
Proof.
  intros s. unfold call_tool. destruct (call _ _ _) as [o w].
  split_and!; [done..| |]; [|by eexists]. exists []. by rewrite app_nil_r.
Qed.

Lemma grows_bind {A B} (m : M A) (f : A → M B) :
  grows m → (∀ a, grows (f a)) → grows (m ≫= f).
Proof.
  intros Hm Hf s. unfold mbind, M_bind.
  destruct (Hm s) as (Hc & Ht & Hh & [dm Hd] & more & Hm').
  destruct (m s) as [[a| |] s1]; cbn in *; [|by eauto 10..].
  destruct (Hf a s1) as (Hc' & Ht' & Hh' & [dm' Hd'] & more' & Hf').
  split_and!; [congruence..| |].
  - exists (dm ++ dm'). by rewrite Hd', Hd, app_assoc.
  - exists (more ++ more'). by rewrite Hf', Hm', app_assoc.
Qed.

Lemma grows_try_except {A} (m : M A) (h : exn → M A) :
  grows m → (∀ e, grows (h e)) → grows (try_except m h).
Proof.
  intros Hm Hh s. unfold try_except.
  destruct (Hm s) as (Hc & Ht & Hs & [dm Hd] & more & Hm').
  destruct (m s) as [[a| |] s1]; cbn in *; [by eauto 10| |by eauto 10].
  destruct (Hh e s1) as (Hc' & Ht' & Hs' & [dm' Hd'] & more' & Hh').
  split_and!; [congruence..| |].
  - exists (dm ++ dm'). by rewrite Hd', Hd, app_assoc.
  - exists (more ++ more'). by rewrite Hh', Hm', app_assoc.
Qed.

Ltac grows_step :=
  first
    [ apply grows_bind; [|intros ?]
    | apply grows_try_except; [|intros ?]
    | apply grows_ret | apply grows_raise | apply grows_unfinished
    | apply grows_get | apply grows_print_line | apply grows_append_dispatch
    | apply grows_call_llm | apply grows_call_tool
    | match goal with
      | |- context [match ?x with _ => _ end] => destruct x
      end ].

Lemma grows_first_tool_call r : grows (first_tool_call r).
Proof. unfold first_tool_call. repeat grows_step. Qed.

Lemma grows_run_tool r : grows (run_tool r).
Proof.
  unfold agent.run_tool, extract_params.
  repeat first [apply grows_first_tool_call | grows_step].
Qed.

Lemma grows_dispatch_body : grows dispatch_body.
Proof.
  unfold agent.dispatch_body.
  repeat first [apply grows_first_tool_call | apply grows_run_tool
               | grows_step].
Qed.

Lemma grows_dispatch_loop fuel : grows (dispatch_loop fuel).
Proof.
  induction fuel as [|fuel IH]; cbn [agent.dispatch_loop].
  - apply grows_unfinished.
  - apply grows_bind; [apply grows_dispatch_body|].
    intros [|]; [apply IH|apply grows_ret].
Qed.

(** *** The passes through the loop body, one lemma per path *)

Ltac run_body :=
  unfold agent.dispatch_body, agent.run_tool, agent.extract_params,
    agent.first_tool_call, agent.call_llm, agent.call_tool,
    agent.append_dispatch, agent.print_line, agent.try_except, agent.get,
    agent.raise, agent.unfinished, mbind, mret, agent.M_bind, agent.M_ret;
  cbn.

(** The lines [run_tool] prints in debug mode. *)
Local Abbreviation debug_lines s tool args :=
  (if debug (config s) then
     ["Please standby while I run the tool " +:+ name tool +:+ "...";
      "(" +:+ dquote +:+ "Tool Args" +:+ dquote +:+ ": "
        +:+ repr_args args +:+ ")";
      EmptyString]
   else []).

Lemma dispatch_body_not_assistant s r w :
  llm (world s) (context_of s) = (Returned r, w) →
  role r ≠ "assistant" →
  dispatch_body s =
    (Returned false,
     mkState (config s) (tools s) (messages s) (dispatch_messages s ++ [r]) w
             (stdout s) (trace s ++ [LlmCall (context_of s)])).
Proof.
  intros E Hr. run_body. rewrite E. cbn.
  by rewrite bool_decide_eq_false_2.
Qed.

Lemma dispatch_body_no_tool_calls s c w :
  llm (world s) (context_of s) = (Returned (AssistantMessage c None), w) →
  dispatch_body s =
    (Returned false,
     mkState (config s) (tools s) (messages s)
             (dispatch_messages s ++ [AssistantMessage c None]) w
             (stdout s ++ ["No tool selected"])
             (trace s ++ [LlmCall (context_of s)])).
Proof. intros E. run_body. rewrite E. cbn. by rewrite bool_decide_eq_true_2. Qed.

Lemma dispatch_body_empty_tool_calls s c w :
  llm (world s) (context_of s) = (Returned (AssistantMessage c (Some [])), w) →
  dispatch_body s =
    (Raised (IndexError "list index out of range"),
     mkState (config s) (tools s) (messages s)
             (dispatch_messages s ++ [AssistantMessage c (Some [])]) w
             (stdout s) (trace s ++ [LlmCall (context_of s)])).
Proof. intros E. run_body. rewrite E. cbn. by rewrite bool_decide_eq_true_2. Qed.

Lemma dispatch_body_unknown_tool s c tc rest w :
  llm (world s) (context_of s)
    = (Returned (AssistantMessage c (Some (tc :: rest))), w) →
  dict_get (tools s) (function_name tc) = None →
  dispatch_body s =
    (Returned true,
     mkState (config s) (tools s) (messages s)
             (dispatch_messages s ++
                [AssistantMessage c (Some (tc :: rest));
                 ToolMessage
                   "The LLM tried to call a function that does not exist."
                   (tool_call_id tc) (Some (function_name tc))])
             w
             (stdout s ++ ["Tool selected: " +:+ function_name tc])
             (trace s ++ [LlmCall (context_of s)])).
Proof.
  intros E Hd. run_body. rewrite E. cbn.
  rewrite bool_decide_eq_true_2 by done. cbn. rewrite Hd. cbn.
  by rewrite <- !app_assoc.
Qed.

Lemma dispatch_body_known_tool s c tc rest w tool o w' :
  llm (world s) (context_of s)
    = (Returned (AssistantMessage c (Some (tc :: rest))), w) →
  dict_get (tools s) (function_name tc) = Some tool →
  call (obj tool) w
       (reconcile.effective_args (parameters (obj tool)) (function_args tc))
    = (o, w') →
  let args :=
    reconcile.effective_args (parameters (obj tool)) (function_args tc) in
  let after tool_response :=
    mkState (config s) (tools s) (messages s)
            (dispatch_messages s ++
               [AssistantMessage c (Some (tc :: rest));
                ToolMessage tool_response (tool_call_id tc)
                            (Some (function_name tc))])
            w'
            (stdout s ++ ("Tool selected: " +:+ function_name tc)
                      :: debug_lines s tool args)
            (trace s ++ [LlmCall (context_of s); ToolRun (name tool) args]) in
  dispatch_body s =
    match o with
    | Returned tool_response => (Returned true, after tool_response)
    | Raised e =>
        (Returned true,
         after ("An error occurred while running the tool: " +:+ exn_str e))
    | Unfinished =>
        (Unfinished,
         mkState (config s) (tools s) (messages s)
                 (dispatch_messages s ++
                    [AssistantMessage c (Some (tc :: rest))])
                 w'
                 (stdout s ++ ("Tool selected: " +:+ function_name tc)
                           :: debug_lines s tool args)
                 (trace s ++ [LlmCall (context_of s); ToolRun (name tool) args]))
    end.
Proof.
  intros E Hd Hc args after. subst after args. unfold reconcile.effective_args in *.
  run_body. rewrite E. cbn.
  rewrite bool_decide_eq_true_2 by done. cbn. rewrite Hd. cbn.
  destruct (debug (config s)); cbn; rewrite Hc; destruct o; cbn;
    by rewrite <- !app_assoc.
Qed.

(** *** The loop *)

Lemma dispatch_loop_continue fuel s s' :
  dispatch_body s = (Returned true, s') →
  dispatch_loop (S fuel) s = dispatch_loop fuel s'.
Proof. intros H. cbn [agent.dispatch_loop]. by rewrite (bind_Returned _ _ _ _ _ H). Qed.

Lemma dispatch_loop_break fuel s s' :
  dispatch_body s = (Returned false, s') →
  dispatch_loop (S fuel) s = (Returned tt, s').
Proof. intros H. cbn [agent.dispatch_loop]. by rewrite (bind_Returned _ _ _ _ _ H). Qed.

Lemma dispatch_loop_raise fuel s e s' :
  dispatch_body s = (Raised e, s') →
  dispatch_loop (S fuel) s = (Raised e, s').
Proof. intros H. cbn [agent.dispatch_loop]. by rewrite (bind_Raised _ _ _ _ _ H). Qed.

(** Every pass through the body starts by handing the current context to
    the adapter. *)
Lemma dispatch_body_first_call s :
  ∃ more, trace (dispatch_body s).2 = trace s ++ LlmCall (context_of s) :: more.
Proof.
  destruct (llm (world s) (context_of s)) as [[r| |] w] eqn:E.
  - destruct r as [c|c|c [[|tc rest]|]|c i n].
    + rewrite (dispatch_body_not_assistant _ _ _ E) by done. by eexists.
    + rewrite (dispatch_body_not_assistant _ _ _ E) by done. by eexists.
    + rewrite (dispatch_body_empty_tool_calls _ _ _ E). by eexists.
    + destruct (dict_get (tools s) (function_name tc)) as [tool|] eqn:Hd.
      * destruct (call (obj tool) w
          (reconcile.effective_args (parameters (obj tool)) (function_args tc)))
          as [o w'] eqn:Hc.
        rewrite (dispatch_body_known_tool _ _ _ _ _ _ _ _ E Hd Hc).
        destruct o; by eexists.
      * rewrite (dispatch_body_unknown_tool _ _ _ _ _ E Hd). by eexists.
    + rewrite (dispatch_body_no_tool_calls _ _ _ E). by eexists.
    + rewrite (dispatch_body_not_assistant _ _ _ E) by done. by eexists.
  - run_body. rewrite E. by eexists.
  - run_body. rewrite E. by eexists.
Qed.

Lemma dispatch_loop_first_call fuel s :
  ∃ more,
    trace (dispatch_loop (S fuel) s).2 = trace s ++ LlmCall (context_of s) :: more.
Proof.
  destruct (dispatch_body_first_call s) as [more Hb].
  cbn [agent.dispatch_loop]. unfold mbind, M_bind.
  destruct (dispatch_body s) as [[[|]| |] s1]; cbn in *; [|by eauto..].
  destruct (grows_dispatch_loop fuel s1) as (_ & _ & _ & _ & more' & ->).
  exists (more ++ more'). rewrite Hb. by rewrite <- app_assoc.
Qed.

(** C1: when the adapter answers with an assistant message whose
    [tool_calls] is [tc :: rest], and the handler [tc] names (if there is one)
    comes to an end, the pass through the loop body runs at most the handler
    of [tc], with the reconciled arguments of [tc], appends the answer and
    exactly one ToolMessage to the working set, and goes round the loop; the
    next thing that happens is the adapter call on the context so extended.
    Nothing in [rest] is looked up or run. *)
Theorem only_first_tool_call_runs s c tc rest w :
  llm (world s) (context_of s)
    = (Returned (AssistantMessage c (Some (tc :: rest))), w) →
  (∀ tool, dict_get (tools s) (function_name tc) = Some tool →
     (call (obj tool) w
        (reconcile.effective_args (parameters (obj tool)) (function_args tc))).1
     ≠ Unfinished) →
  let ran :=
    match dict_get (tools s) (function_name tc) with
    | Some tool =>
        [ToolRun (name tool)
           (reconcile.effective_args (parameters (obj tool))
                                     (function_args tc))]
    | None => []
    end in
  ∃ s' tool_response,
    let appended :=
      [AssistantMessage c (Some (tc :: rest));
       ToolMessage tool_response (tool_call_id tc) (Some (function_name tc))] in
    dispatch_body s = (Returned true, s') ∧
    dispatch_messages s' = dispatch_messages s ++ appended ∧
    messages s' = messages s ∧
    trace s' = trace s ++ LlmCall (context_of s) :: ran ∧
    ∀ fuel, ∃ more,
      trace (dispatch_loop (S (S fuel)) s).2
      = trace s ++ LlmCall (context_of s) :: ran
          ++ LlmCall (context_of s ++ appended) :: more.
Proof.
  intros E Hfin ran.
  assert (Hnext : ∀ s' appended,
    dispatch_body s = (Returned true, s') →
    dispatch_messages s' = dispatch_messages s ++ appended →
    messages s' = messages s →
    trace s' = trace s ++ LlmCall (context_of s) :: ran →
    ∀ fuel, ∃ more,
      trace (dispatch_loop (S (S fuel)) s).2
      = trace s ++ LlmCall (context_of s) :: ran
          ++ LlmCall (context_of s ++ appended) :: more).
  { intros s' appended Hb Hd Hm Ht fuel.
    rewrite (dispatch_loop_continue _ _ _ Hb).
    destruct (dispatch_loop_first_call fuel s') as [more ->].
    exists more. rewrite Ht. unfold context_of. rewrite Hd, Hm.
    by rewrite <- !app_assoc. }
  subst ran.
  destruct (dict_get (tools s) (function_name tc)) as [tool|] eqn:Hd.
  - destruct (call (obj tool) w
      (reconcile.effective_args (parameters (obj tool)) (function_args tc)))
      as [o w'] eqn:Hc.
    pose proof (dispatch_body_known_tool _ _ _ _ _ _ _ _ E Hd Hc) as Hb.
    cbn zeta in Hb. specialize (Hfin tool eq_refl). rewrite Hc in Hfin.
    destruct o as [out|e|]; [| |done].
    + eexists _, out. cbn zeta. split_and!; [exact Hb|done..|].
      by eapply Hnext.
    + eexists _, _. cbn zeta. split_and!; [exact Hb|done..|].
      by eapply Hnext.
  - pose proof (dispatch_body_unknown_tool _ _ _ _ _ E Hd) as Hb.
    eexists _, _. cbn zeta. split_and!; [exact Hb|done..|].
    by eapply Hnext.
Qed.

(** C2: when the handler of a registered tool raises, the pass through the
    loop body does not raise: it appends a ToolMessage whose content is
    'An error occurred while running the tool: ' followed by the message of
    the exception, and the loop goes on to the next adapter call. *)
Theorem handler_exception_becomes_tool_message s c tc rest w tool e w' :
  llm (world s) (context_of s)
    = (Returned (AssistantMessage c (Some (tc :: rest))), w) →
  dict_get (tools s) (function_name tc) = Some tool →
  call (obj tool) w
       (reconcile.effective_args (parameters (obj tool)) (function_args tc))
    = (Raised e, w') →
  ∃ s',
    let appended :=
      [AssistantMessage c (Some (tc :: rest));
       ToolMessage ("An error occurred while running the tool: " +:+ exn_str e)
                   (tool_call_id tc) (Some (function_name tc))] in
    dispatch_body s = (Returned true, s') ∧
    dispatch_messages s' = dispatch_messages s ++ appended ∧
    (∀ fuel, dispatch_loop (S fuel) s = dispatch_loop fuel s') ∧
    ∀ fuel, ∃ more,
      trace (dispatch_loop (S (S fuel)) s).2
      = trace s ++
          [LlmCall (context_of s);
           ToolRun (name tool)
             (reconcile.effective_args (parameters (obj tool))
                                       (function_args tc));
           LlmCall (context_of s ++ appended)] ++ more.
Proof.
  intros E Hd Hc.
  pose proof (dispatch_body_known_tool _ _ _ _ _ _ _ _ E Hd Hc) as Hb.
  cbn zeta in Hb. eexists. cbn zeta. split_and!; [exact Hb|done| |].
  - intros fuel. by apply dispatch_loop_continue.
  - intros fuel. rewrite (dispatch_loop_continue _ _ _ Hb).
    match goal with |- context [dispatch_loop _ ?s1] =>
      destruct (dispatch_loop_first_call fuel s1) as [more ->] end.
    exists more. unfold context_of. cbn. by rewrite <- !app_assoc.
Qed.

(** C3: when the first tool call names a function that is not in the
    registry, the pass through the loop body does not raise and runs no
    handler: it appends a ToolMessage with the fixed content
    'The LLM tried to call a function that does not exist.', the id of the
    tool call and the name it asked for, and the loop calls the adapter once
    more, on the context so extended. *)
Theorem unknown_tool_reported s c tc rest w :
  llm (world s) (context_of s)
    = (Returned (AssistantMessage c (Some (tc :: rest))), w) →
  dict_get (tools s) (function_name tc) = None →
  ∃ s',
    let appended :=
      [AssistantMessage c (Some (tc :: rest));
       ToolMessage "The LLM tried to call a function that does not exist."
                   (tool_call_id tc) (Some (function_name tc))] in
    dispatch_body s = (Returned true, s') ∧
    dispatch_messages s' = dispatch_messages s ++ appended ∧
    trace s' = trace s ++ [LlmCall (context_of s)] ∧
    world s' = w ∧
    ∀ fuel, ∃ more,
      trace (dispatch_loop (S (S fuel)) s).2
      = trace s ++
          [LlmCall (context_of s); LlmCall (context_of s ++ appended)] ++ more.
Proof.
  intros E Hd.
  pose proof (dispatch_body_unknown_tool _ _ _ _ _ E Hd) as Hb.
  eexists. cbn zeta. split_and!; [exact Hb|done..|].
  intros fuel. rewrite (dispatch_loop_continue _ _ _ Hb).
  match goal with |- context [dispatch_loop _ ?s1] =>
    destruct (dispatch_loop_first_call fuel s1) as [more ->] end.
  exists more. unfold context_of. cbn. by rewrite <- !app_assoc.
Qed.

(** *** [dispatch] *)

Lemma dispatch_unfold fuel t s :
  dispatch fuel t s
  = dispatch_loop fuel
      (set_dispatch_messages [UserMessage (question_header +:+ t)] s).
Proof. reflexivity. Qed.

Lemma length_append (a b : string) :
  String.length (a +:+ b) = String.length a + String.length b.
Proof.
  induction a as [|ch a IH]; [done|].
  change (S (String.length (a +:+ b)) = S (String.length a + String.length b)).
  by rewrite IH.
Qed.

(** C7: on the first pass of [dispatch] on the raw text [t], the context
    handed to the adapter is the system message holding AGENT_PROMPT, then
    the session history, then one UserMessage whose content is [t] behind the
    fixed header '\n\n### Question ###\n'; that content is never [t]
    itself. *)
Theorem first_context_of_dispatch fuel t s :
  (∃ more,
     trace (dispatch (S fuel) t s).2
     = trace s ++
         LlmCall ([SystemMessage system_prompts.AGENT_PROMPT] ++ messages s
                    ++ [UserMessage (question_header +:+ t)]) :: more) ∧
  question_header = nl +:+ nl +:+ "### Question ###" +:+ nl ∧
  question_header +:+ t ≠ t.
Proof.
  split_and!.
  - rewrite dispatch_unfold.
    match goal with |- context [dispatch_loop _ ?s1] =>
      destruct (dispatch_loop_first_call fuel s1) as [more ->] end.
    by exists more.
  - reflexivity.
  - intros H. apply (f_equal String.length) in H.
    rewrite length_append in H.
    assert (String.length question_header = 19) as Hl by reflexivity. lia.
Qed.

(** The working set [dispatch] leaves starts with the question; the session
    history, the registry and the configuration are as they were. *)
Lemma dispatch_working_set fuel t s :
  config (dispatch fuel t s).2 = config s ∧
  tools (dispatch fuel t s).2 = tools s ∧
  messages (dispatch fuel t s).2 = messages s ∧
  ∃ more,
    dispatch_messages (dispatch fuel t s).2
    = UserMessage (question_header +:+ t) :: more.
Proof.
  rewrite dispatch_unfold.
  match goal with |- context [dispatch_loop _ ?s1] =>
    destruct (grows_dispatch_loop fuel s1) as (-> & -> & -> & [more ->] & _)
  end.
  split_and!; [done..|]. by exists more.
Qed.

(** An assistant message without [tool_calls] ends the loop: its content is
    the last of the working set and no handler has run. *)
Lemma no_tool_calls_is_final fuel s c w :
  llm (world s) (context_of s) = (Returned (AssistantMessage c None), w) →
  ∃ s', dispatch_loop (S fuel) s = (Returned tt, s') ∧
        dispatch_messages s' = dispatch_messages s ++ [AssistantMessage c None] ∧
        trace s' = trace s ++ [LlmCall (context_of s)].
Proof.
  intros E. eexists. split.
  - apply dispatch_loop_break. by apply dispatch_body_no_tool_calls.
  - done.
Qed.

(** An assistant message whose [tool_calls] is the empty list makes the loop,
    and so [dispatch], raise IndexError: line 240 reads [tool_calls[0]]
    outside the [try]. *)
Lemma empty_tool_calls_raise fuel s c w :
  llm (world s) (context_of s) = (Returned (AssistantMessage c (Some [])), w) →
  (dispatch_loop (S fuel) s).1 = Raised (IndexError "list index out of range").
Proof.
  intros E.
  by rewrite (dispatch_loop_raise _ _ _ _ (dispatch_body_empty_tool_calls _ _ _ E)).
Qed.

(** C5 (as amended): when the first tool call names a registered tool whose
    handler accepts a 'user_prompt' parameter, the handler is entered with
    'user_prompt' exactly as the LLM's [function_args] has it: the LLM's value
    when it supplies one, and no 'user_prompt' keyword at all (neither [None]
    nor the raw input text) when it does not. *)
Theorem user_prompt_is_what_the_llm_supplied s c tc rest w tool :
  llm (world s) (context_of s)
    = (Returned (AssistantMessage c (Some (tc :: rest))), w) →
  dict_get (tools s) (function_name tc) = Some tool →
  "user_prompt" ∈ parameters (obj tool) →
  ∃ kwargs,
    trace (dispatch_body s).2
      = trace s ++ [LlmCall (context_of s); ToolRun (name tool) kwargs] ∧
    kwargs !! "user_prompt" = function_args tc !! "user_prompt".
Proof.
  intros E Hd Hin.
  destruct (call (obj tool) w
    (reconcile.effective_args (parameters (obj tool)) (function_args tc)))
    as [o w'] eqn:Hc.
  rewrite (dispatch_body_known_tool _ _ _ _ _ _ _ _ E Hd Hc).
  eexists. split.
  - by destruct o.
  - rewrite lookup_effective_args, decide_True by done.
    destruct (function_args tc !! "user_prompt"); [done|].
    by rewrite decide_True.
Qed.

(** *** [interact] and [interact_functional] *)

Lemma print_line_bind {B} line (k : M B) s :
  (print_line line ;; k) s = k (set_stdout (stdout s ++ [line]) s).
Proof. reflexivity. Qed.

(** [print_message_history] only prints, and does not raise once [color] is
    bound: that is, unless the first message printed is a ToolMessage. *)
Lemma print_history_loop_returns color l s :
  is_Some color ∨ (∀ m, head l = Some m → is_tool_message m = false) →
  ∃ lines,
    print_history_loop color l s = (Returned tt, set_stdout (stdout s ++ lines) s).
Proof.
  revert color s. induction l as [|m l IH]; intros color s Hc.
  - exists []. cbn. unfold mret, M_ret, set_stdout. rewrite app_nil_r.
    by destruct s.
  - cbn [print_history_loop].
    set (color' := if decide (role m = "user") then _ else _).
    assert (∃ col, color' = Some col) as [col Hcol].
    { subst color'. destruct m; cbn;
        rewrite ?decide_True, ?decide_False by done; try by eexists.
      destruct Hc as [[col ->]|Hc]; [by eexists|].
      by specialize (Hc _ eq_refl). }
    rewrite Hcol, !print_line_bind.
    edestruct (IH (Some col)) as [lines ->]; [left; by eexists|].
    exists (["Role: " +:+ role m; col; content m; Colors.ENDC] ++ lines).
    unfold set_stdout. cbn. by rewrite <- !app_assoc.
Qed.

Lemma print_history_returns l s :
  (∀ m, head l = Some m → is_tool_message m = false) →
  ∃ lines,
    print_message_history l s = (Returned tt, set_stdout (stdout s ++ lines) s).
Proof.
  intros Hl. unfold print_message_history. rewrite print_line_bind.
  unfold mbind, M_bind.
  edestruct (print_history_loop_returns None l) as [lines ->]; [by right|].
  exists (stars :: lines ++ [stars]).
  unfold print_line, set_stdout. cbn. by rewrite <- !app_assoc.
Qed.

Lemma print_agent text out s :
  highlight_code text (colorscheme (config s)) = Some out →
  agent.print highlight_code text "agent" s
  = (Returned tt,
     set_stdout (stdout s ++ [Colors.BLUE; "[agent]"; Colors.ENDC; out]) s).
Proof.
  intros H. unfold agent.print, colors.
  rewrite !decide_False, decide_True by done.
  unfold mbind, mret, M_bind, M_ret, print_line, get, set_stdout. cbn.
  rewrite H. cbn. by rewrite <- !app_assoc.
Qed.

Lemma last_content_returns s m :
  last (messages s) = Some m → last_content s = (Returned (content m), s).
Proof. intros H. unfold last_content, get, mbind, M_bind. by rewrite H. Qed.

Lemma starts_with_tool_head l :
  starts_with_tool l = false →
  ∀ m, head l = Some m → is_tool_message m = false.
Proof. destruct l; cbn; [done|]. by intros ? ? [= <-]. Qed.

Lemma starts_with_tool_question l c more :
  starts_with_tool (l ++ UserMessage c :: more) = starts_with_tool l.
Proof. by destruct l. Qed.

(** What [interact] does once [dispatch] has returned, unless the history is
    printed and starts with a ToolMessage. *)
Lemma interact_after_dispatch fuel t s s1 final out :
  dispatch fuel t s = (Returned tt, s1) →
  last (messages s1 ++ dispatch_messages s1) = Some final →
  debug (config s1)
    && starts_with_tool (messages s1 ++ dispatch_messages s1) = false →
  highlight_code (content final) (colorscheme (config s1)) = Some out →
  ∃ lines,
    agent.interact llm highlight_code repr_args fuel t s
    = (Returned PyNone,
       mkState (config s1) (tools s1) (messages s1 ++ dispatch_messages s1)
               (dispatch_messages s1) (world s1)
               (stdout s1 ++ lines
                  ++ [Colors.BLUE; "[agent]"; Colors.ENDC; out])
               (trace s1)).
Proof.
  intros Hd Hlast Hh Hout. unfold agent.interact.
  erewrite bind_Returned; [|exact Hd].
  erewrite bind_Returned; [|reflexivity].
  erewrite bind_Returned; [|reflexivity]. cbn beta.
  destruct (debug (config s1)) eqn:Hdbg; cbn [config set_messages].
  - rewrite Hdbg. cbn [messages].
    edestruct (print_history_returns (messages s1 ++ dispatch_messages s1))
      as [lines Hp]; [by apply starts_with_tool_head|].
    erewrite bind_Returned; [|apply Hp].
    erewrite bind_Returned; [|by apply last_content_returns].
    erewrite bind_Returned; [|by apply print_agent].
    exists lines. unfold mret, M_ret, set_stdout. cbn.
    by rewrite <- !app_assoc.
  - rewrite Hdbg.
    erewrite bind_Returned; [|reflexivity].
    erewrite bind_Returned; [|by apply last_content_returns].
    erewrite bind_Returned; [|by apply print_agent].
    exists []. done.
Qed.

Lemma interact_functional_after_dispatch fuel t s s1 final out :
  dispatch fuel t s = (Returned tt, s1) →
  last (messages s1 ++ dispatch_messages s1) = Some final →
  highlight_code (content final) (colorscheme (config s1)) = Some out →
  agent.interact_functional llm highlight_code repr_args fuel t s
  = (Returned (PyStr (content final)),
     mkState (config s1) (tools s1) (messages s1 ++ dispatch_messages s1)
             (dispatch_messages s1) (world s1)
             (stdout s1 ++ [Colors.BLUE; "[agent]"; Colors.ENDC; out])
             (trace s1)).
Proof.
  intros Hd Hlast Hout. unfold agent.interact_functional.
  erewrite bind_Returned; [|exact Hd].
  erewrite bind_Returned; [|reflexivity].
  erewrite bind_Returned; [|by apply last_content_returns].
  erewrite bind_Returned; [|by apply print_agent].
  done.
Qed.


(** *** What a whole run keeps *)

(** The paths through the loop body, by what they leave behind. *)
Lemma dispatch_body_cases s :
  (∃ ran, trace (dispatch_body s).2 = trace s ++ LlmCall (context_of s) :: ran ∧
          one_tool_per_call true ran = true) ∧
  match (dispatch_body s).1 with
  | Returned false =>
      ∃ r, dispatch_messages (dispatch_body s).2 = dispatch_messages s ++ [r] ∧
           ends_loop r = true
  | Returned true =>
      ∃ asked answered,
        dispatch_messages (dispatch_body s).2
          = dispatch_messages s ++ [asked; answered] ∧
        is_tool_round asked answered = true
  | _ => True
  end.
Proof.
  destruct (llm (world s) (context_of s)) as [[r| |] w] eqn:E.
  - destruct r as [c|c|c [[|tc rest]|]|c i n].
    + rewrite (dispatch_body_not_assistant _ _ _ E) by done.
      split; [by exists []|]. by eexists.
    + rewrite (dispatch_body_not_assistant _ _ _ E) by done.
      split; [by exists []|]. by eexists.
    + rewrite (dispatch_body_empty_tool_calls _ _ _ E). split; [by exists []|done].
    + destruct (dict_get (tools s) (function_name tc)) as [tool|] eqn:Hd.
      * destruct (call (obj tool) w
          (reconcile.effective_args (parameters (obj tool)) (function_args tc)))
          as [o w'] eqn:Hc.
        rewrite (dispatch_body_known_tool _ _ _ _ _ _ _ _ E Hd Hc).
        destruct o; cbn; (split; [by eexists [_]|]); try done.
        all: eexists _, _; split; [done|]; cbn; by rewrite bool_decide_eq_true_2.
      * rewrite (dispatch_body_unknown_tool _ _ _ _ _ E Hd). cbn.
        split; [by exists []|]. eexists _, _. split; [done|]. cbn.
        by rewrite bool_decide_eq_true_2.
    + rewrite (dispatch_body_no_tool_calls _ _ _ E).
      split; [by exists []|]. by eexists.
    + rewrite (dispatch_body_not_assistant _ _ _ E) by done.
      split; [by exists []|]. by eexists.
  - run_body. rewrite E. split; [by exists []|done].
  - run_body. rewrite E. split; [by exists []|done].
Qed.

Lemma dispatch_loop_working_set fuel s s' :
  dispatch_loop fuel s = (Returned tt, s') →
  ∃ ws, dispatch_messages s' = dispatch_messages s ++ ws ∧
        rounds_then_final ws = true.
Proof.
  revert s. induction fuel as [|fuel IH]; intros s; [done|].
  cbn [agent.dispatch_loop]. unfold mbind, M_bind.
  destruct (dispatch_body_cases s) as [_ Hb].
  destruct (dispatch_body s) as [[[|]| |] s1]; cbn in Hb; [| |done..].
  - destruct Hb as (asked & answered & Hd & Hr). intros Hl.
    destruct (IH _ Hl) as (ws & Hws & Hf).
    exists (asked :: answered :: ws). split.
    + by rewrite Hws, Hd, <- app_assoc.
    + cbn [rounds_then_final]. rewrite Hr, Hf. by destruct ws.
  - destruct Hb as (r & Hd & Hr). intros [= <-]. exists [r]. by split.
Qed.

(** X1: whenever [dispatch] returns, the working set it leaves is the
    question, then tool rounds (an assistant message with tool calls followed
    by the ToolMessage carrying the id and the name of its first call), then
    one last message that is not an assistant message with tool calls. *)
Theorem dispatch_leaves_rounds_then_final fuel t s s' :
  dispatch fuel t s = (Returned tt, s') →
  ∃ ws, dispatch_messages s' = UserMessage (question_header +:+ t) :: ws ∧
        rounds_then_final ws = true.
Proof.
  rewrite dispatch_unfold. intros H.
  destruct (dispatch_loop_working_set _ _ _ H) as (ws & Hws & Hf).
  by exists ws.
Qed.

Lemma one_tool_per_call_weaken l :
  one_tool_per_call false l = true → one_tool_per_call true l = true.
Proof. destruct l as [|[?|? ?] l]; cbn; [done..|]. by intros ?. Qed.

Lemma one_tool_per_call_app p a b :
  one_tool_per_call p a = true → one_tool_per_call false b = true →
  one_tool_per_call p (a ++ b) = true.
Proof.
  revert p. induction a as [|[ctx|n k] a IH]; intros p Ha Hb; cbn in *.
  - destruct p; [by apply one_tool_per_call_weaken|done].
  - by apply IH.
  - apply andb_true_iff in Ha as [-> Ha]. cbn. by apply IH.
Qed.

(** X2: in the events of a run of the loop every handler run comes right
    after an adapter call: the loop starts with the adapter and never runs
    two handlers in a row, however long it goes on and however it ends. *)
Theorem dispatch_runs_one_tool_per_call fuel t s :
  ∃ added, trace (dispatch fuel t s).2 = trace s ++ added ∧
           one_tool_per_call false added = true.
Proof.
  rewrite dispatch_unfold.
  change (trace s) with
    (trace (set_dispatch_messages [UserMessage (question_header +:+ t)] s)).
  generalize (set_dispatch_messages [UserMessage (question_header +:+ t)] s).
  clear s. induction fuel as [|fuel IH]; intros s.
  - exists []. by rewrite app_nil_r.
  - cbn [agent.dispatch_loop]. unfold mbind, M_bind.
    destruct (dispatch_body_cases s) as [(ran & Ht & Hran) _].
    destruct (dispatch_body s) as [[[|]| |] s1]; cbn in Ht;
      try by (exists (LlmCall (context_of s) :: ran); split).
    destruct (IH s1) as (added & -> & Hadd).
    exists (LlmCall (context_of s) :: ran ++ added). split.
    + by rewrite Ht, <- app_assoc.
    + cbn. by apply one_tool_per_call_app.
Qed.

(** *** [interact] when [dispatch] does not return *)

(** X3: when [dispatch] raises (the adapter raised, or the IndexError of an
    empty [tool_calls]), [interact] and [interact_functional] raise the same
    exception, print nothing more, and the session history is what it was:
    the working set of the failed dispatch is not merged. *)
Theorem interact_raises_with_session_untouched fuel t s e s1 :
  dispatch fuel t s = (Raised e, s1) →
  agent.interact llm highlight_code repr_args fuel t s = (Raised e, s1) ∧
  agent.interact_functional llm highlight_code repr_args fuel t s
    = (Raised e, s1) ∧
  messages s1 = messages s.
Proof.
  intros Hd. unfold agent.interact, agent.interact_functional.
  rewrite !(bind_Raised _ _ _ _ _ Hd). split_and!; [done..|].
  destruct (dispatch_working_set fuel t s) as (_ & _ & Hm & _).
  by rewrite Hd in Hm.
Qed.

Lemma dispatch_body_adapter_raises s e w :
  llm (world s) (context_of s) = (Raised e, w) →
  dispatch_body s
  = (Raised e,
     mkState (config s) (tools s) (messages s) (dispatch_messages s) w
             (stdout s) (trace s ++ [LlmCall (context_of s)])).
Proof. intros E. run_body. by rewrite E. Qed.

(** The adapter raising on the first call of a dispatch is such a case. *)
Lemma dispatch_adapter_raises fuel t s e w :
  llm (world s)
      ([SystemMessage system_prompts.AGENT_PROMPT] ++ messages s
         ++ [UserMessage (question_header +:+ t)])
    = (Raised e, w) →
  ∃ s1, dispatch (S fuel) t s = (Raised e, s1) ∧
        dispatch_messages s1 = [UserMessage (question_header +:+ t)].
Proof.
  intros E. rewrite dispatch_unfold. eexists. split.
  - apply dispatch_loop_raise. by apply dispatch_body_adapter_raises.
  - done.
Qed.

(** *** The session across calls *)

Lemma grows_print_history_loop color l : grows (print_history_loop color l).
Proof.
  revert color. induction l as [|m l IH]; intros color.
  - apply grows_ret.
  - cbn [print_history_loop].
    repeat first [apply IH | grows_step].
Qed.

Lemma grows_print_message_history l : grows (print_message_history l).
Proof.
  unfold print_message_history.
  repeat first [apply grows_print_history_loop | grows_step].
Qed.

Lemma grows_print text role : grows (agent.print highlight_code text role).
Proof. unfold agent.print. repeat grows_step. Qed.

Lemma grows_last_content : grows last_content.
Proof. unfold last_content. repeat grows_step. Qed.

(** The history after [interact], however it ends: what it was, with the
    working set behind it if [dispatch] returned. *)
Lemma interact_session fuel t s :
  ∃ ws,
    messages (agent.interact llm highlight_code repr_args fuel t s).2
      = messages s ++ ws ∧
    (ws = [] ∨ ∃ more, ws = UserMessage (question_header +:+ t) :: more).
Proof.
  destruct (dispatch_working_set fuel t s) as (_ & _ & Hm & more & Hws).
  unfold agent.interact. unfold mbind at 1. unfold M_bind at 1.
  destruct (dispatch fuel t s) as [[[]| |] s1]; cbn in Hm, Hws;
    [|exists []; rewrite app_nil_r; eauto..].
  unfold mbind at 1. unfold M_bind at 1. cbn [extend_messages].
  match goal with |- context [messages (?tail ?s2).2] =>
    assert (grows tail) as Hg;
      [|destruct (Hg s2) as (_ & _ & -> & _)] end.
  { repeat first [apply grows_print_message_history | apply grows_print
                 | apply grows_last_content | grows_step]. }
  cbn. rewrite Hm, Hws. eauto.
Qed.

Lemma interact_functional_session fuel t s :
  ∃ ws,
    messages (agent.interact_functional llm highlight_code repr_args fuel t s).2
      = messages s ++ ws ∧
    (ws = [] ∨ ∃ more, ws = UserMessage (question_header +:+ t) :: more).
Proof.
  destruct (dispatch_working_set fuel t s) as (_ & _ & Hm & more & Hws).
  unfold agent.interact_functional. unfold mbind at 1. unfold M_bind at 1.
  destruct (dispatch fuel t s) as [[[]| |] s1]; cbn in Hm, Hws;
    [|exists []; rewrite app_nil_r; eauto..].
  unfold mbind at 1. unfold M_bind at 1. cbn [extend_messages].
  match goal with |- context [messages (?tail ?s2).2] =>
    assert (grows tail) as Hg;
      [|destruct (Hg s2) as (_ & _ & -> & _)] end.
  { repeat first [apply grows_print | apply grows_last_content | grows_step]. }
  cbn. rewrite Hm, Hws. eauto.
Qed.

Lemma print_message_history_tool_first c i n l s :
  (print_message_history (ToolMessage c i n :: l) s).1
  = Raised (UnboundLocalError "cannot access local variable 'color' where it is not associated with a value").
Proof.
  unfold print_message_history. rewrite print_line_bind.
  cbn [print_history_loop role]. rewrite !decide_False by done.
  unfold mbind at 1. unfold M_bind at 1.
  rewrite print_line_bind. unfold mbind, M_bind, raise. done.
Qed.

(** X4: [print_message_history] raises UnboundLocalError exactly when the
    first message of the list is a ToolMessage ([color] is only assigned for
    user, system and assistant messages, and is kept from one message to the
    next); on every other list, the empty one included, it prints and
    returns. *)
Theorem print_message_history_raises_on_leading_tool l s :
  (print_message_history l s).1
  = match l with
    | m :: _ =>
        if is_tool_message m
        then Raised (UnboundLocalError "cannot access local variable 'color' where it is not associated with a value")
        else Returned tt
    | [] => Returned tt
    end.
Proof.
  destruct l as [|m l].
  - by destruct (print_history_returns [] s) as [lines ->].
  - destruct m as [c|c|c calls|c i n]; cbn [is_tool_message];
      try (edestruct (print_history_returns) as [lines ->];
           [|reflexivity]; by intros ? [= <-]).
    apply print_message_history_tool_first.
Qed.

(** X5: a session that is empty or starts with a UserMessage still does
    after [interact] and after [interact_functional], however they end; so
    printing the history of such a session (the debug mode of [interact])
    never raises. *)
Theorem session_keeps_starting_with_user fuel t s :
  (∀ m, head (messages s) = Some m → ∃ c, m = UserMessage c) →
  let after := (agent.interact llm highlight_code repr_args fuel t s).2 in
  let after_f :=
    (agent.interact_functional llm highlight_code repr_args fuel t s).2 in
  (∀ m, head (messages after) = Some m → ∃ c, m = UserMessage c) ∧
  (∀ m, head (messages after_f) = Some m → ∃ c, m = UserMessage c) ∧
  ∀ s0, (print_message_history (messages after) s0).1 = Returned tt.
Proof.
  intros Hs after after_f.
  assert (Hkeep : ∀ ws,
    (ws = [] ∨ ∃ more, ws = UserMessage (question_header +:+ t) :: more) →
    ∀ m, head (messages s ++ ws) = Some m → ∃ c, m = UserMessage c).
  { intros ws Hws m. destruct (messages s) as [|m0 l] eqn:E; cbn.
    - destruct Hws as [->|[more ->]]; cbn; [done|]. intros [= <-]. by eexists.
    - intros [= <-]. by apply Hs. }
  destruct (interact_session fuel t s) as (ws & Hm & Hws).
  destruct (interact_functional_session fuel t s) as (ws' & Hm' & Hws').
  subst after after_f. rewrite Hm, Hm'. split_and!; [by apply Hkeep..|].
  intros s0. edestruct (print_history_returns) as [lines ->]; [|reflexivity].
  intros m Hh. destruct (Hkeep ws Hws m Hh) as [c ->]. done.
Qed.

(** What a returning [interact_functional] went through. *)
Lemma interact_functional_returned fuel t s v s' :
  agent.interact_functional llm highlight_code repr_args fuel t s
    = (Returned v, s') →
  ∃ s1, dispatch fuel t s = (Returned tt, s1) ∧
        messages s' = messages s ++ dispatch_messages s1.
Proof.
  unfold agent.interact_functional. unfold mbind at 1. unfold M_bind at 1.
  destruct (dispatch fuel t s) as [[[]| |] s1] eqn:Hd; [|done..].
  intros H. exists s1. split; [done|].
  destruct (dispatch_working_set fuel t s) as (_ & _ & Hm & _).
  rewrite Hd in Hm. cbn in Hm.
  revert H. unfold mbind at 1. unfold M_bind at 1. cbn [extend_messages].
  match goal with |- ?tail ?s2 = _ → _ =>
    assert (grows tail) as Hg;
      [|destruct (Hg s2) as (_ & _ & Hmm & _)] end.
  { repeat first [apply grows_print | apply grows_last_content | grows_step]. }
  intros H. rewrite H in Hmm. cbn in Hmm. by rewrite Hmm, Hm.
Qed.

(** X6: what one call of [interact_functional] added to the session is in
    front of the adapter on the next call.  The call went through a
    [dispatch] that returned; the session it leaves is the old history
    followed by the whole working set of that dispatch (its question first),
    and the first context of the next dispatch is the system message, the
    old history, that whole working set, and the new question. *)
Theorem next_dispatch_sees_previous_exchange fuel t1 s v s1 fuel2 t2 :
  agent.interact_functional llm highlight_code repr_args fuel t1 s
    = (Returned v, s1) →
  ∃ s0 more,
    dispatch fuel t1 s = (Returned tt, s0) ∧
    head (dispatch_messages s0) = Some (UserMessage (question_header +:+ t1)) ∧
    messages s1 = messages s ++ dispatch_messages s0 ∧
    trace (dispatch (S fuel2) t2 s1).2
    = trace s1 ++
        LlmCall ([SystemMessage system_prompts.AGENT_PROMPT] ++ messages s
                   ++ dispatch_messages s0
                   ++ [UserMessage (question_header +:+ t2)]) :: more.
Proof.
  intros H. destruct (interact_functional_returned _ _ _ _ _ H) as (s0 & Hd & Hm).
  destruct (dispatch_working_set fuel t1 s) as (_ & _ & _ & ws & Hws).
  rewrite Hd in Hws. cbn in Hws.
  destruct (dispatch_loop_first_call fuel2
              (set_dispatch_messages
                 [UserMessage (question_header +:+ t2)] s1)) as [more Hmore].
  exists s0, more. split_and!; [done|by rewrite Hws|done|].
  rewrite dispatch_unfold, Hmore.
  unfold context_of. cbn. by rewrite Hm, <- !app_assoc.
Qed.

(** *** [interact] once [dispatch] has returned, for any renderer *)

Lemma print_agent_unfinished text s :
  highlight_code text (colorscheme (config s)) = None →
  agent.print highlight_code text "agent" s
  = (Unfinished,
     set_stdout (stdout s ++ [Colors.BLUE; "[agent]"; Colors.ENDC]) s).
Proof.
  intros H. unfold agent.print, colors.
  rewrite !decide_False, decide_True by done.
  unfold mbind, mret, M_bind, M_ret, print_line, get, set_stdout, unfinished.
  cbn. rewrite H. cbn. by rewrite <- !app_assoc.
Qed.

(** The session after [interact] and [interact_functional] once [dispatch]
    has returned, however they end. *)
Lemma interact_messages_after_dispatch fuel t s s1 :
  dispatch fuel t s = (Returned tt, s1) →
  messages (agent.interact llm highlight_code repr_args fuel t s).2
    = messages s ++ dispatch_messages s1 ∧
  messages (agent.interact_functional llm highlight_code repr_args fuel t s).2
    = messages s ++ dispatch_messages s1.
Proof.
  intros Hd.
  destruct (dispatch_working_set fuel t s) as (_ & _ & Hm & _).
  rewrite Hd in Hm. cbn in Hm.
  unfold agent.interact, agent.interact_functional.
  split.
  all: unfold mbind at 1; unfold M_bind at 1; rewrite Hd.
  all: unfold mbind at 1; unfold M_bind at 1; cbn [extend_messages].
  all: match goal with |- context [messages (?tail ?s2).2] =>
         assert (grows tail) as Hg;
           [|destruct (Hg s2) as (_ & _ & -> & _); cbn; by rewrite Hm] end.
  - repeat first [apply grows_print_message_history | apply grows_print
                 | apply grows_last_content | grows_step].
  - repeat first [apply grows_print | apply grows_last_content | grows_step].
Qed.

(** With [debug] on and a ToolMessage first in the merged history,
    [print_message_history] raises and nothing is printed for the answer. *)
Lemma interact_after_dispatch_raises fuel t s s1 :
  dispatch fuel t s = (Returned tt, s1) →
  debug (config s1) = true →
  starts_with_tool (messages s1 ++ dispatch_messages s1) = true →
  (agent.interact llm highlight_code repr_args fuel t s).1
  = Raised (UnboundLocalError "cannot access local variable 'color' where it is not associated with a value").
Proof.
  intros Hd Hdbg Htool. unfold agent.interact.
  erewrite bind_Returned; [|exact Hd].
  erewrite bind_Returned; [|reflexivity].
  erewrite bind_Returned; [|reflexivity]. cbn beta.
  cbn [config set_messages messages]. rewrite Hdbg.
  destruct (messages s1 ++ dispatch_messages s1) as [|[| | |c i n] l];
    try discriminate Htool.
  unfold mbind at 1. unfold M_bind at 1.
  match goal with |- context [print_message_history _ ?s2] =>
    pose proof (print_message_history_tool_first c i n l s2) as Hp;
    destruct (print_message_history (ToolMessage c i n :: l) s2) as [o s3]
  end.
  cbn in Hp. by subst o.
Qed.

(** When the renderer does not return, neither does [interact]. *)
Lemma interact_after_dispatch_unfinished fuel t s s1 final :
  dispatch fuel t s = (Returned tt, s1) →
  last (messages s1 ++ dispatch_messages s1) = Some final →
  debug (config s1)
    && starts_with_tool (messages s1 ++ dispatch_messages s1) = false →
  highlight_code (content final) (colorscheme (config s1)) = None →
  (agent.interact llm highlight_code repr_args fuel t s).1 = Unfinished.
Proof.
  intros Hd Hlast Hh Hout. unfold agent.interact.
  erewrite bind_Returned; [|exact Hd].
  erewrite bind_Returned; [|reflexivity].
  erewrite bind_Returned; [|reflexivity]. cbn beta.
  destruct (debug (config s1)) eqn:Hdbg; cbn [config set_messages].
  - rewrite Hdbg. cbn [messages].
    edestruct (print_history_returns (messages s1 ++ dispatch_messages s1))
      as [lines Hp]; [by apply starts_with_tool_head|].
    erewrite bind_Returned; [|apply Hp].
    erewrite bind_Returned; [|by apply last_content_returns].
    erewrite bind_Unfinished; [done|by apply print_agent_unfinished].
  - rewrite Hdbg.
    erewrite bind_Returned; [|reflexivity].
    erewrite bind_Returned; [|by apply last_content_returns].
    erewrite bind_Unfinished; [done|by apply print_agent_unfinished].
Qed.

Lemma interact_functional_after_dispatch_unfinished fuel t s s1 final :
  dispatch fuel t s = (Returned tt, s1) →
  last (messages s1 ++ dispatch_messages s1) = Some final →
  highlight_code (content final) (colorscheme (config s1)) = None →
  (agent.interact_functional llm highlight_code repr_args fuel t s).1
  = Unfinished.
Proof.
  intros Hd Hlast Hout. unfold agent.interact_functional.
  erewrite bind_Returned; [|exact Hd].
  erewrite bind_Returned; [|reflexivity].
  erewrite bind_Returned; [|by apply last_content_returns].
  erewrite bind_Unfinished; [done|by apply print_agent_unfinished].
Qed.

(** *** [Agent.run]: reading the prompt *)

(** The lines of a block of code, each followed by a newline. *)
Lemma append_assoc_string (a b c : string) : (a +:+ b) +:+ c = a +:+ b +:+ c.
Proof.
  induction a as [|x a IH]; [done|].
  change (String x ((a +:+ b) +:+ c) = String x (a +:+ b +:+ c)).
  by rewrite IH.
Qed.

Lemma append_nil_r_string (a : string) : a +:+ EmptyString = a.
Proof.
  induction a as [|x a IH]; [done|].
  change (String x (a +:+ EmptyString) = String x a). by rewrite IH.
Qed.

Lemma read_code_lines up body last rest s :
  Forall (λ line, contains "\end" line = false) body →
  contains "\end" last = true →
  read_code up (body ++ last :: rest) s
  = (Returned (up +:+ foldr (λ line acc, line +:+ nl +:+ acc) EmptyString body,
               rest), s).
Proof.
  intros Hbody Hlast. revert up.
  induction Hbody as [|line body Hline _ IH]; intros up.
  - cbn [app foldr read_code]. rewrite Hlast. cbn [negb].
    by rewrite append_nil_r_string.
  - cbn [app foldr read_code]. rewrite Hline. cbn [negb].
    rewrite IH. by rewrite !append_assoc_string.
Qed.

(** What [read_code] returns: the lines up to the first with '\end' were
    taken, every newline of the prompt so far is kept, and nothing was
    printed. *)
Lemma read_code_inv up stdin s p rest s' :
  read_code up stdin s = (Returned (p, rest), s') →
  s' = s ∧
  (∃ taken, taken ≠ [] ∧ stdin = taken ++ rest) ∧
  (contains nl up = true → contains nl p = true).
Proof.
  revert up. induction stdin as [|line stdin IH]; intros up; [done|].
  cbn [read_code]. destruct (contains "\end" line); cbn [negb].
  - intros [= <- <-]. split; [done|]. split; [|done].
    by exists [line].
  - intros H. destruct (IH _ H) as (-> & (taken & Hne & ->) & Hnl).
    split; [done|]. split; [by exists (line :: taken)|].
    intros Hup. apply Hnl. unfold nl in *.
    rewrite contains_append, Hup. done.
Qed.

Lemma read_prompt_blank rest s :
  read_prompt (EmptyString :: rest) s = read_prompt rest s.
Proof. reflexivity. Qed.

Lemma read_prompt_blanks blanks rest s :
  Forall (λ line, line = EmptyString) blanks →
  read_prompt (blanks ++ rest) s = read_prompt rest s.
Proof.
  induction 1 as [|line blanks -> _ IH]; [done|].
  cbn [app]. by rewrite read_prompt_blank.
Qed.

Lemma read_prompt_plain line rest s :
  line ≠ EmptyString → contains "\code" line = false →
  read_prompt (line :: rest) s = (Returned (line, rest), s).
Proof.
  intros Hne Hc. cbn [read_prompt]. rewrite Hc.
  by rewrite decide_False.
Qed.

(** X17: the prompt that [run] hands on is never empty, also after '\code'
    is cut out of it, and at least one line of the input was read for it:
    a prompt read in code mode keeps a newline, any other is the non-empty
    line as typed. *)
Theorem read_prompt_is_never_empty stdin s typed rest s' :
  read_prompt stdin s = (Returned (typed, rest), s') →
  replace "\code" EmptyString typed ≠ EmptyString ∧
  (contains "\code" typed = false →
     replace "\code" EmptyString typed = typed) ∧
  ∃ taken, taken ≠ [] ∧ stdin = taken ++ rest.
Proof.
  revert s s'. induction stdin as [|line stdin IH]; intros s s'; [done|].
  cbn [read_prompt].
  destruct (contains "\code" line) eqn:Hcode.
  - rewrite !print_line_bind. intros H.
    apply read_code_inv in H as (_ & (taken & Hne & ->) & Hnl).
    assert (contains nl (replace "\code" EmptyString typed) = true) as Hk.
    { unfold replace, nl. apply replace_steps_keeps; [done|done|lia|].
      apply Hnl. unfold nl. rewrite contains_append.
      apply orb_true_iff. by right. }
    split_and!.
    + intros Hempty. by rewrite Hempty in Hk.
    + intros Hc. unfold replace. by rewrite replace_steps_absent.
    + by exists (line :: taken).
  - destruct (decide (line = EmptyString)) as [->|Hne].
    + intros H. apply IH in H as (? & ? & taken & Hne & ->).
      split_and!; [done|done|by exists (EmptyString :: taken)].
    + intros [= <- <- <-]. unfold replace.
      rewrite replace_steps_absent by done.
      split_and!; [done|done|by exists [line]].
Qed.

(** X18: code mode.  A line with '\code' prints the three lines of the
    notice; the prompt is that line and the lines after it, a newline after
    each, up to the first line that contains '\end'.  That line is read and
    dropped whole, with whatever else is on it, and the input after it is
    left for the next prompt. *)
Theorem code_mode_joins_lines_until_end first body last rest s :
  contains "\code" first = true →
  Forall (λ line, contains "\end" line = false) body →
  contains "\end" last = true →
  read_prompt (first :: body ++ last :: rest) s
  = (Returned (first +:+ nl
                 +:+ foldr (λ line acc, line +:+ nl +:+ acc) EmptyString body,
               rest),
     set_stdout (stdout s ++ [Colors.YELLOW;
                              code_mode_notice;
                              Colors.ENDC]) s).
Proof.
  intros Hfirst Hbody Hlast. cbn [read_prompt]. rewrite Hfirst.
  rewrite !print_line_bind, read_code_lines by done.
  rewrite append_assoc_string. f_equal.
  destruct s. unfold set_stdout. cbn. by rewrite <- !app_assoc.
Qed.

(** X19: after any number of empty lines, [exit], [quit] or [q] ends [run]
    with the agent as it was: nothing printed, no adapter call, the session
    untouched.  When the input ends instead, [run] raises EOFError. *)
Theorem run_ends_on_command_or_end_of_input blanks :
  Forall (λ line, line = EmptyString) blanks →
  (∀ cmd rest turns fuel s,
     cmd ∈ ["exit"; "quit"; "q"] →
     agent.run llm highlight_code repr_args (S turns) fuel
       (blanks ++ cmd :: rest) s = (Returned tt, s)) ∧
  (∀ turns fuel s,
     agent.run llm highlight_code repr_args (S turns) fuel blanks s
     = (Raised EOFError, s)).
Proof.
  intros Hblanks. split.
  - intros cmd rest turns fuel s Hcmd. cbn [agent.run].
    erewrite bind_Returned;
      [|rewrite read_prompt_blanks by done; apply read_prompt_plain].
    + cbn [fst snd].
      set_unfold in Hcmd.
      destruct Hcmd as [->|[->|[->|[]]]]; vm_compute; reflexivity.
    + set_unfold in Hcmd. by destruct Hcmd as [->|[->|[->|[]]]].
    + set_unfold in Hcmd.
      destruct Hcmd as [->|[->|[->|[]]]]; vm_compute; reflexivity.
  - intros turns fuel s. cbn [agent.run].
    erewrite bind_Raised; [done|].
    rewrite <- (app_nil_r blanks). by rewrite read_prompt_blanks.
Qed.


(** One pass of the loop on a line that is a question. *)
Lemma run_turn blanks line rest turns fuel s :
  Forall (λ l, l = EmptyString) blanks →
  line ≠ EmptyString → contains "\code" line = false →
  line ∉ ["exit"; "quit"; "q"] →
  agent.run llm highlight_code repr_args (S turns) fuel
    (blanks ++ line :: rest) s
  = (agent.interact llm highlight_code repr_args fuel line ;;
     agent.run llm highlight_code repr_args turns fuel rest) s.
Proof.
  intros Hblanks Hne Hcode Hcmd. cbn [agent.run].
  erewrite bind_Returned;
    [|rewrite read_prompt_blanks by done; by apply read_prompt_plain].
  cbn [fst snd]. unfold replace. rewrite replace_steps_absent by done.
  rewrite bool_decide_eq_false_2; [done|].
  intros [-> | [-> | ->]]; apply Hcmd; set_solver.
Qed.

(** X20: [run] has no handler around [interact]: an exception that leaves
    [interact] on a question leaves [run] too, with the rest of the input
    unread. *)
Theorem exception_of_interact_ends_run blanks line rest turns fuel s e s1 :
  Forall (λ l, l = EmptyString) blanks →
  line ≠ EmptyString → contains "\code" line = false →
  line ∉ ["exit"; "quit"; "q"] →
  agent.interact llm highlight_code repr_args fuel line s = (Raised e, s1) →
  agent.run llm highlight_code repr_args (S turns) fuel
    (blanks ++ line :: rest) s = (Raised e, s1).
Proof.
  intros Hblanks Hne Hcode Hcmd H. rewrite run_turn by done.
  by erewrite bind_Raised.
Qed.

(** X21: a line without '\code' that is no command goes to [interact] as
    typed; when [interact] returns, the next prompt is read from the lines
    after it, on the state [interact] left. *)
Theorem run_asks_line_as_typed blanks line rest turns fuel s v s1 :
  Forall (λ l, l = EmptyString) blanks →
  line ≠ EmptyString → contains "\code" line = false →
  line ∉ ["exit"; "quit"; "q"] →
  agent.interact llm highlight_code repr_args fuel line s = (Returned v, s1) →
  agent.run llm highlight_code repr_args (S turns) fuel
    (blanks ++ line :: rest) s
  = agent.run llm highlight_code repr_args turns fuel rest s1.
Proof.
  intros Hblanks Hne Hcode Hcmd H. rewrite run_turn by done.
  by erewrite bind_Returned.
Qed.

End agent_facts.

(** ** [utils.highlight_code] *)

Section highlight_facts.

Variable highlight : string → string → string.

Implicit Types (c x : Ascii.ascii) (sub pre rest code post text s : string).

Lemma prefix_append a b : String.prefix a (a +:+ b) = true.
Proof.
  induction a as [|x a IH]; [by destruct b|].
  change (String x a +:+ b) with (String x (a +:+ b)).
  cbn [String.prefix]. by destruct (Ascii.ascii_dec x x).
Qed.

Lemma prefix_other c x sub s :
  c ≠ x → String.prefix (String c sub) (String x s) = false.
Proof. intros H. cbn. by destruct (Ascii.ascii_dec c x). Qed.

Lemma absent_cons c x s :
  contains (String c EmptyString) (String x s) = false →
  c ≠ x ∧ contains (String c EmptyString) s = false.
Proof.
  rewrite contains_cons. intros [Hx ?]%orb_false_iff.
  by apply bool_decide_eq_false in Hx.
Qed.

(** A string without the character [c] has no occurrence of a string that
    starts with it. *)
Lemma contains_absent c sub s :
  contains (String c EmptyString) s = false →
  contains (String c sub) s = false.
Proof.
  induction s as [|x s IH]; intros H; [done|].
  apply absent_cons in H as [Hx H].
  cbn [contains]. rewrite prefix_other by done. by apply IH.
Qed.

Lemma contains_skip c sub pre rest :
  contains (String c EmptyString) pre = false →
  contains (String c sub) (pre +:+ rest) = contains (String c sub) rest.
Proof.
  induction pre as [|x pre IH]; intros H; [done|].
  apply absent_cons in H as [Hx H].
  change (String x pre +:+ rest) with (String x (pre +:+ rest)).
  cbn [contains]. rewrite prefix_other by done. by apply IH.
Qed.

Lemma contains_here sub rest : contains sub (sub +:+ rest) = true.
Proof.
  destruct sub as [|c sub]; [by destruct rest|].
  change (String c sub +:+ rest) with (String c (sub +:+ rest)) at 1.
  cbn [contains].
  change (String c (sub +:+ rest)) with (String c sub +:+ rest).
  by rewrite prefix_append.
Qed.

(** [find]: the first occurrence after a stretch without [c]. *)
Lemma find_steps_skip c sub pre rest idx :
  contains (String c EmptyString) pre = false →
  find_steps (String c sub) (pre +:+ String c sub +:+ rest) idx
  = (idx + Z.of_nat (String.length pre))%Z.
Proof.
  revert idx. induction pre as [|x pre IH]; intros idx H.
  - change (EmptyString +:+ ?t) with t.
    change (String c sub +:+ rest) with (String c (sub +:+ rest)).
    cbn [find_steps].
    change (String c (sub +:+ rest)) with (String c sub +:+ rest).
    rewrite prefix_append. cbn. lia.
  - apply absent_cons in H as [Hx H].
    change (String x pre +:+ ?t) with (String x (pre +:+ t)).
    cbn [find_steps]. rewrite prefix_other by done.
    rewrite IH by done. cbn [String.length]. lia.
Qed.

Lemma find_steps_absent sub s idx :
  contains sub s = false → find_steps sub s idx = (-1)%Z.
Proof.
  revert idx. induction s as [|x s IH]; intros idx H; cbn [contains] in H;
    apply orb_false_iff in H as [Hp H]; cbn [find_steps]; rewrite Hp; [done|].
  by apply IH.
Qed.

Lemma string_drop_append a b :
  string_drop (String.length a) (a +:+ b) = b.
Proof. induction a as [|x a IH]; [by destruct b|]. exact IH. Qed.

Lemma string_take_append a b :
  string_take (String.length a) (a +:+ b) = a.
Proof.
  induction a as [|x a IH]; [by destruct b|].
  change (String x (string_take (String.length a) (a +:+ b)) = String x a).
  by rewrite IH.
Qed.

Lemma string_drop_append_le (n : nat) a b :
  (n ≤ String.length a)%nat →
  string_drop n (a +:+ b) = string_drop n a +:+ b.
Proof.
  revert a. induction n as [|n IH]; intros a H; [reflexivity|].
  destruct a as [|x a]; cbn in H; [lia|].
  change (string_drop n (a +:+ b) = string_drop n a +:+ b).
  apply IH. lia.
Qed.

Lemma absent_string_drop c (n : nat) s :
  contains (String c EmptyString) s = false →
  contains (String c EmptyString) (string_drop n s) = false.
Proof.
  revert s. induction n as [|n IH]; intros [|x s] H; try done.
  apply absent_cons in H as [_ H]. by apply IH.
Qed.

Lemma slice_bound_inside (len n : nat) :
  (n ≤ len)%nat → slice_bound len (Z.of_nat n) = n.
Proof.
  intros H. unfold slice_bound.
  destruct (Z.ltb_spec (Z.of_nat n) 0); lia.
Qed.

Lemma slice_to_append a b :
  slice_to (a +:+ b) (Z.of_nat (String.length a)) = a.
Proof.
  unfold slice_to. rewrite slice_bound_inside, string_take_append; [done|].
  rewrite length_append. lia.
Qed.

Lemma slice_from_inside s (n : nat) :
  (n ≤ String.length s)%nat → slice_from s (Z.of_nat n) = string_drop n s.
Proof. intros H. unfold slice_from. by rewrite slice_bound_inside. Qed.

(** [split]: pieces of a string without the separator, and the first piece
    before a separator that starts with [c]. *)
Lemma split_steps_absent steps sep s :
  contains sep s = false → split_steps steps sep s = [s].
Proof.
  revert s. induction steps as [|steps IH]; intros [|x s] H; try done.
  cbn [contains] in H. apply orb_false_iff in H as [Hp H].
  cbn [split_steps]. rewrite Hp. by rewrite IH.
Qed.

Lemma split_absent sep s : contains sep s = false → split sep s = [s].
Proof. apply split_steps_absent. Qed.

Lemma split_steps_enough c sub (steps : nat) s :
  (String.length s ≤ steps)%nat →
  split_steps steps (String c sub) s = split (String c sub) s.
Proof.
  unfold split. remember (String.length s) as n eqn:En.
  assert (String.length s ≤ n)%nat as Hn by lia. clear En.
  revert s steps Hn.
  induction n as [|n IH]; intros [|x s] steps Hn Hs; cbn in Hn, Hs; try lia.
  - by destruct steps.
  - by destruct steps.
  - destruct steps as [|steps]; [lia|].
    cbn [split_steps].
    destruct (String.prefix (String c sub) (String x s)) eqn:Hp.
    + f_equal.
      assert (String.length (string_drop (String.length (String c sub))
                               (String x s)) ≤ n)%nat as Hd.
      { rewrite length_string_drop. cbn. lia. }
      rewrite (IH _ steps Hd); [done|lia].
    + rewrite (IH s steps); [done|lia..].
Qed.

Lemma split_steps_here steps sep x s :
  String.prefix sep (String x s) = true →
  split_steps (S steps) sep (String x s)
  = EmptyString
      :: split_steps steps sep (string_drop (String.length sep) (String x s)).
Proof. intros H. cbn [split_steps]. by rewrite H. Qed.

Lemma split_skip c sub pre rest :
  contains (String c EmptyString) pre = false →
  split (String c sub) (pre +:+ String c sub +:+ rest)
  = pre :: split (String c sub) rest.
Proof.
  induction pre as [|x pre IH]; intros H.
  - change (EmptyString +:+ ?t) with t. unfold split at 1.
    rewrite length_append. cbn [String.length Nat.add].
    etrans; [apply (split_steps_here _ (String c sub) c (sub +:+ rest)),
               (prefix_append (String c sub) rest)|].
    change (String c (sub +:+ rest)) with (String c sub +:+ rest).
    rewrite string_drop_append.
    rewrite split_steps_enough; [done|lia].
  - apply absent_cons in H as [Hx H].
    change (String x pre +:+ ?t) with (String x (pre +:+ t)).
    unfold split at 1. cbn [String.length split_steps].
    rewrite prefix_other by done.
    fold (split (String c sub) (pre +:+ String c sub +:+ rest)).
    by rewrite IH.
Qed.

Lemma string_drop_append_ge a (k : nat) b :
  string_drop (String.length a + k) (a +:+ b) = string_drop k b.
Proof. induction a as [|x a IH]; [done|]. exact IH. Qed.

Lemma find_first c sub pre rest :
  contains (String c EmptyString) pre = false →
  find (String c sub) (pre +:+ String c sub +:+ rest) 0
  = Z.of_nat (String.length pre).
Proof.
  intros H. unfold find. cbn [Z.ltb Z.compare].
  destruct (Z.ltb_spec (Z.of_nat (String.length
                                    (pre +:+ String c sub +:+ rest))) 0);
    [lia|].
  change (Z.to_nat 0) with 0%nat. cbn [string_drop].
  rewrite find_steps_skip by done. lia.
Qed.

Lemma find_after_first sub' c sub pre rest :
  find sub' (pre +:+ String c sub +:+ rest)
       (Z.of_nat (String.length pre) + 1)
  = find_steps sub' (sub +:+ rest) (Z.of_nat (String.length pre) + 1).
Proof.
  unfold find.
  destruct (Z.ltb_spec (Z.of_nat (String.length pre) + 1) 0); [lia|].
  destruct (Z.ltb_spec (Z.of_nat (String.length
                                    (pre +:+ String c sub +:+ rest)))
                       (Z.of_nat (String.length pre) + 1)) as [Hlt|_].
  { rewrite !length_append in Hlt. cbn [String.length] in Hlt. lia. }
  replace (Z.to_nat (Z.of_nat (String.length pre) + 1))
    with (String.length pre + 1)%nat by lia.
  by rewrite string_drop_append_ge.
Qed.

(** The pass of [highlight_code_helper] over a text whose only fence is not
    closed and starts after the second character: [end_idx] is -1, so the
    tail of the result is [text[2:]], and the result is again a text of this
    kind, with a longer stretch before the fence. *)
Lemma highlight_code_helper_open_fence pre rest colorscheme :
  contains "`" pre = false → (2 ≤ String.length pre)%nat →
  contains "`" rest = false →
  utils.highlight_code_helper highlight
    (pre +:+ "```python" +:+ rest) colorscheme
  = (pre +:+ highlight rest colorscheme +:+ string_drop 2 pre)
      +:+ "```python" +:+ rest.
Proof.
  intros Hpre Hlen Hrest. unfold utils.highlight_code_helper.
  rewrite (find_first _ "``python") by done.
  rewrite (find_after_first "```" _ "``python").
  rewrite (find_steps_absent "```" ("``python" +:+ rest)).
  2:{ change (contains "```" rest = false). by apply (contains_absent _ "``"). }
  rewrite bool_decide_eq_false_2 by lia.
  rewrite (contains_skip _ "``python") by done.
  rewrite (contains_here "```python").
  rewrite (split_skip _ "``python") by done.
  rewrite (split_absent "```python" rest)
    by by apply (contains_absent _ "``python").
  change (utils.piece [pre; rest] 1) with rest.
  rewrite (split_absent "```" rest) by by apply (contains_absent _ "``").
  change (utils.piece [rest] 0) with rest.
  rewrite slice_to_append.
  change (-1 + 3)%Z with (Z.of_nat 2).
  rewrite slice_from_inside by (rewrite length_append; lia).
  rewrite string_drop_append_le by done.
  by rewrite !append_assoc_string.
Qed.

Lemma highlight_loop_open_fence fuel pre rest colorscheme :
  contains "`" pre = false → (2 ≤ String.length pre)%nat →
  contains "`" rest = false →
  contains "`" (highlight rest colorscheme) = false →
  utils.highlight_loop highlight fuel (pre +:+ "```python" +:+ rest)
    colorscheme = None.
Proof.
  intros Hpre Hlen Hrest Hh. revert pre Hpre Hlen.
  induction fuel as [|fuel IH]; intros pre Hpre Hlen;
    cbn [utils.highlight_loop];
    rewrite (contains_skip _ "``python") by done;
    rewrite (contains_here "```python"); [done|].
  rewrite highlight_code_helper_open_fence by done.
  apply IH.
  - rewrite !contains_append, Hpre, Hh. by rewrite absent_string_drop.
  - rewrite length_append. lia.
Qed.

(** X22: [highlight_code] never returns on a text whose only python fence
    is not closed and starts after the second character, when neither the
    text around the fence nor what pygments makes of the tail holds a
    backquote: every pass of [highlight_code_helper] leaves such a text
    again, longer than before, so the loop has not ended after any number
    of passes. *)
Theorem highlight_code_never_returns_on_open_fence fuel pre rest colorscheme :
  contains "`" pre = false → (2 ≤ String.length pre)%nat →
  contains "`" rest = false →
  contains "`" (highlight rest colorscheme) = false →
  utils.highlight_code highlight fuel (pre +:+ "```python" +:+ rest)
    colorscheme = None.
Proof.
  intros Hpre Hlen Hrest Hh. unfold utils.highlight_code.
  rewrite (contains_skip _ "``python") by done.
  rewrite (contains_here "```python"). cbn [negb].
  rewrite highlight_code_helper_open_fence by done.
  apply highlight_loop_open_fence; [|rewrite length_append; lia|done..].
  rewrite !contains_append, Hpre, Hh. by rewrite absent_string_drop.
Qed.

(** The pass over a closed block: [end_idx] is the index of the closing
    fence. *)
Lemma highlight_code_helper_block pre code post colorscheme :
  contains "`" pre = false → contains "`" code = false →
  contains "```python" ("```" +:+ post) = false →
  utils.highlight_code_helper highlight
    (pre +:+ "```python" +:+ code +:+ "```" +:+ post) colorscheme
  = pre +:+ highlight code colorscheme +:+ post.
Proof.
  intros Hpre Hcode Hpost. unfold utils.highlight_code_helper.
  rewrite (find_first _ "``python") by done.
  rewrite (find_after_first "```" _ "``python").
  change (find_steps "```" ("``python" +:+ code +:+ "```" +:+ post)
            (Z.of_nat (String.length pre) + 1))
    with (find_steps "```" (code +:+ "```" +:+ post)
            (Z.of_nat (String.length pre) + 1 + 1 + 1 + 1 + 1 + 1 + 1 + 1 + 1)).
  rewrite (find_steps_skip _ "``") by done.
  rewrite bool_decide_eq_false_2 by lia.
  rewrite (contains_skip _ "``python") by done.
  rewrite (contains_here "```python").
  rewrite (split_skip _ "``python") by done.
  rewrite (split_absent "```python" (code +:+ "```" +:+ post)).
  2:{ by rewrite (contains_skip _ "``python"). }
  change (utils.piece [pre; ?x] 1) with x.
  rewrite (split_skip _ "``") by done.
  change (utils.piece (code :: ?x) 0) with code.
  rewrite slice_to_append.
  replace (Z.of_nat (String.length pre) + 1 + 1 + 1 + 1 + 1 + 1 + 1 + 1 + 1
           + Z.of_nat (String.length code) + 3)%Z
    with (Z.of_nat (String.length
                      (((pre +:+ "```python") +:+ code) +:+ "```")))
    by (rewrite !length_append; cbn [String.length]; lia).
  rewrite <- !append_assoc_string.
  rewrite slice_from_inside by (rewrite (length_append _ post); lia).
  by rewrite string_drop_append.
Qed.

(** X23: on a text with one block of code between a python fence and a
    closing fence, [highlight_code] returns after one pass, with the block
    and its two fences replaced by what pygments makes of the code and the
    text before and after kept as it is; provided the text before and the
    code hold no backquote, the closing fence does not run into a new python
    fence, and the result holds none. *)
Theorem highlight_code_replaces_closed_block fuel pre code post colorscheme :
  contains "`" pre = false → contains "`" code = false →
  contains "```python" ("```" +:+ post) = false →
  contains "```python" (pre +:+ highlight code colorscheme +:+ post) = false →
  utils.highlight_code highlight fuel
    (pre +:+ "```python" +:+ code +:+ "```" +:+ post) colorscheme
  = Some (pre +:+ highlight code colorscheme +:+ post).
Proof.
  intros Hpre Hcode Hpost Hout. unfold utils.highlight_code.
  rewrite (contains_skip _ "``python") by done.
  rewrite (contains_here "```python"). cbn [negb].
  rewrite highlight_code_helper_block by done.
  destruct fuel; cbn [utils.highlight_loop]; by rewrite Hout.
Qed.

(** [highlight_code] leaves no python fence in what it returns: the loop
    ends on nothing else. *)
Lemma highlight_loop_no_fence fuel out colorscheme r :
  utils.highlight_loop highlight fuel out colorscheme = Some r →
  contains "```python" r = false.
Proof.
  revert out. induction fuel as [|fuel IH]; intros out;
    cbn [utils.highlight_loop];
    destruct (contains "```python" out) eqn:E; try done.
  - by intros [= <-].
  - apply IH.
  - by intros [= <-].
Qed.

Lemma highlight_code_no_fence fuel text colorscheme r :
  utils.highlight_code highlight fuel text colorscheme = Some r →
  contains "```python" r = false.
Proof.
  unfold utils.highlight_code.
  destruct (contains "```python" text) eqn:E; cbn [negb].
  - apply highlight_loop_no_fence.
  - by intros [= <-].
Qed.

(** A text without a python fence is returned as it is. *)
Lemma highlight_code_plain fuel text colorscheme :
  contains "```python" text = false →
  utils.highlight_code highlight fuel text colorscheme = Some text.
Proof. intros H. unfold utils.highlight_code. by rewrite H. Qed.

End highlight_facts.

(** ** [interact] with [utils.highlight_code] as the renderer *)

Section interact_facts.
Import agent.

Context {World : Type}.
Variable llm : World → list Message → outcome Message * World.
Variable highlight : string → string → string.
Variable repr_args : gmap string pyval → string.

(** C8 (as amended): when [dispatch] returns on the prompt, [interact] and
    [interact_functional] append the dispatch working set to the session
    history in order, the prior history being an unchanged prefix, however
    they end afterwards.  Then the content of the final message goes to
    [highlight_code] for printing.  When [highlight_code] returns, its
    result, which has no python fence left and is the content itself when
    there was none, is the last line printed; [interact_functional] returns
    the content as a string and [interact] returns [None], unless [debug]
    is on and the history starts with a ToolMessage: then printing the
    history raises UnboundLocalError.  When [highlight_code] does not
    return within [hfuel] passes of its loop, [interact_functional] is
    unfinished, and so is [interact] but for the same exception. *)
Theorem interact_extends_session_and_prints hfuel fuel t
    (s s1 : @agent.state World) :
  agent.dispatch llm repr_args fuel t s = (Returned tt, s1) →
  let render := utils.highlight_code highlight hfuel in
  let i := agent.interact llm render repr_args fuel t s in
  let f := agent.interact_functional llm render repr_args fuel t s in
  let leading_tool := debug (config s) && starts_with_tool (messages s) in
  ∃ final,
    last (dispatch_messages s1) = Some final ∧
    messages i.2 = messages s ++ dispatch_messages s1 ∧
    messages f.2 = messages s ++ dispatch_messages s1 ∧
    (contains "```python" (content final) = false →
     render (content final) (colorscheme (config s)) = Some (content final)) ∧
    match render (content final) (colorscheme (config s)) with
    | Some out =>
        contains "```python" out = false ∧
        f.1 = Returned (PyStr (content final)) ∧
        last (stdout f.2) = Some out ∧
        if leading_tool
        then i.1 = Raised (UnboundLocalError "cannot access local variable 'color' where it is not associated with a value")
        else i.1 = Returned PyNone ∧ last (stdout i.2) = Some out
    | None =>
        f.1 = Unfinished ∧
        i.1 = if leading_tool
              then Raised (UnboundLocalError "cannot access local variable 'color' where it is not associated with a value")
              else Unfinished
    end.
Proof.
  intros Hd render i f leading_tool.
  destruct (dispatch_working_set llm repr_args fuel t s)
    as (Hcfg & _ & Hmsgs & more & Hws).
  rewrite Hd in Hcfg, Hmsgs, Hws. cbn in Hcfg, Hmsgs, Hws.
  assert (∃ final, last (dispatch_messages s1) = Some final) as [final Hfin].
  { rewrite Hws. by apply last_is_Some. }
  assert (Hlast : last (messages s1 ++ dispatch_messages s1) = Some final).
  { rewrite Hws in *. by rewrite last_app, Hfin. }
  assert (Htool : debug (config s1)
                    && starts_with_tool (messages s1 ++ dispatch_messages s1)
                  = leading_tool).
  { by rewrite Hcfg, Hmsgs, Hws, starts_with_tool_question. }
  destruct (interact_messages_after_dispatch llm render repr_args _ _ _ _ Hd)
    as [Hi Hf].
  exists final. split_and!; [done..| |].
  { apply highlight_code_plain. }
  destruct (render (content final) (colorscheme (config s))) as [out|] eqn:Hr;
    rewrite <- Hcfg in Hr.
  - split; [by eapply highlight_code_no_fence|].
    subst f. rewrite (interact_functional_after_dispatch llm render repr_args
                        _ _ _ _ _ _ Hd Hlast Hr).
    split; [done|]. split; [cbn; by rewrite last_app|].
    destruct leading_tool eqn:Hl.
    + apply andb_true_iff in Htool as [Hdbg Hst].
      by apply (interact_after_dispatch_raises llm render repr_args _ _ _ s1).
    + subst i.
      destruct (interact_after_dispatch llm render repr_args
                  _ _ _ _ _ _ Hd Hlast Htool Hr) as [lines ->].
      split; [done|]. cbn. by rewrite !last_app.
  - split.
    + by eapply interact_functional_after_dispatch_unfinished.
    + destruct leading_tool eqn:Hl.
      * apply andb_true_iff in Htool as [Hdbg Hst].
        by apply (interact_after_dispatch_raises llm render repr_args _ _ _ s1).
      * by eapply interact_after_dispatch_unfinished.
Qed.

(** X24: when the answer that ends [dispatch] has an open python fence (as
    in X22), [interact_functional] does not return, whatever number of
    passes the loop of [highlight_code] is given, and neither does
    [interact] with [debug] off; the session has the working set all the
    same. *)
Theorem interact_never_returns_on_open_fence hfuel fuel t
    (s s1 : @agent.state World) final pre rest :
  agent.dispatch llm repr_args fuel t s = (Returned tt, s1) →
  last (dispatch_messages s1) = Some final →
  content final = pre +:+ "```python" +:+ rest →
  contains "`" pre = false → (2 ≤ String.length pre)%nat →
  contains "`" rest = false →
  contains "`" (highlight rest (colorscheme (config s))) = false →
  let render := utils.highlight_code highlight hfuel in
  let i := agent.interact llm render repr_args fuel t s in
  let f := agent.interact_functional llm render repr_args fuel t s in
  f.1 = Unfinished ∧
  (debug (config s) = false → i.1 = Unfinished) ∧
  messages i.2 = messages s ++ dispatch_messages s1 ∧
  messages f.2 = messages s ++ dispatch_messages s1.
Proof.
  intros Hd Hfin Hc Hpre Hlen Hrest Hh render i f.
  destruct (dispatch_working_set llm repr_args fuel t s)
    as (Hcfg & _ & Hmsgs & more & Hws).
  rewrite Hd in Hcfg, Hmsgs, Hws. cbn in Hcfg, Hmsgs, Hws.
  assert (Hlast : last (messages s1 ++ dispatch_messages s1) = Some final).
  { rewrite Hws in *. by rewrite last_app, Hfin. }
  assert (Hr : render (content final) (colorscheme (config s1)) = None).
  { rewrite Hc, Hcfg. unfold render, utils.highlight_code.
    rewrite (contains_skip _ "``python") by done.
    rewrite (contains_here "```python"). cbn [negb].
    rewrite highlight_code_helper_open_fence by done.
    apply highlight_loop_open_fence; [|rewrite length_append; lia|done..].
    rewrite !contains_append, Hpre, Hh. by rewrite absent_string_drop. }
  destruct (interact_messages_after_dispatch llm render repr_args _ _ _ _ Hd)
    as [Hi Hf].
  split_and!; [|intros Hdbg|done..].
  - by eapply interact_functional_after_dispatch_unfinished.
  - eapply interact_after_dispatch_unfinished; [done..| |done].
    by rewrite Hcfg, Hdbg.
Qed.

End interact_facts.

(** ** Schema export *)

Section export_facts.
Import utils.

Context {World : Type}.
Variable yaml_dump : json → string.

(** C9: exporting the schemas of a registry twice gives the same list, in
    the same order, both times, and writes the same text to the file; the
    registry, and with it every stored schema, is after each export what it
    was before. *)
Theorem export_twice_is_identical (filename : string) (st : @store World) :
  let first := save_tools_to_yaml yaml_dump filename st in
  let second := save_tools_to_yaml yaml_dump filename first.2 in
  second.1 = first.1 ∧
  first.1 = map schema (dict_values (registry st)) ∧
  registry first.2 = registry st ∧
  registry second.2 = registry st ∧
  files first.2 !! filename
    = Some (yaml_dump (JObj [("tools", JArr first.1)])) ∧
  files second.2 !! filename = files first.2 !! filename.
Proof.
  cbn. split_and!; try done.
  - by rewrite lookup_insert_eq.
  - by rewrite !lookup_insert_eq.
Qed.

Lemma dict_get_del {V} (d : dict V) k : dict_get (dict_del d k) k = None.
Proof.
  induction d as [|[k' v] d IH]; cbn; [done|].
  destruct (decide (k' = k)) as [->|Hne]; [done|].
  cbn. by rewrite decide_False.
Qed.

Lemma remove_default_idempotent value :
  remove_default (remove_default value) = remove_default value.
Proof.
  unfold remove_default. destruct (dict_get value "default") eqn:E.
  - by rewrite dict_get_del.
  - by rewrite E.
Qed.

(** The stored schemas themselves: [parse_tool_schema] deletes the 'default'
    entries inside its argument, but parsing the argument again, as the first
    call left it, gives the same schema and changes nothing more. *)
Lemma parse_tool_schema_again ts parsed ts' :
  parse_tool_schema ts = (Returned parsed, ts') →
  parse_tool_schema ts' = (Returned parsed, ts').
Proof.
  unfold parse_tool_schema. destruct (ts_description ts) eqn:E; [|done].
  intros [= <- <-]. cbn [ts_description ts_title ts_properties].
  set (clean := map _ (ts_properties ts)).
  assert (map (λ pv : string * dict json, (pv.1, remove_default pv.2)) clean
          = clean) as ->; [|done].
  subst clean. rewrite map_map. apply map_ext. intros [k v]. cbn.
  by rewrite remove_default_idempotent.
Qed.

(** *** What [parse_tool_schema] leaves of its argument *)

Lemma dict_get_del_ne {V} (d : dict V) k k' :
  k' ≠ k → dict_get (dict_del d k) k' = dict_get d k'.
Proof.
  intros Hne. induction d as [|[k0 v] d IH]; cbn; [done|].
  destruct (decide (k0 = k)) as [->|Hk].
  - by rewrite IH, decide_False.
  - cbn. by rewrite IH.
Qed.

Lemma remove_default_spec value k :
  dict_get (remove_default value) k
  = if decide (k = "default") then None else dict_get value k.
Proof.
  unfold remove_default. destruct (decide (k = "default")) as [->|Hne].
  - destruct (dict_get value "default") eqn:E; [apply dict_get_del|done].
  - destruct (dict_get value "default"); [by apply dict_get_del_ne|done].
Qed.

Lemma lookup_map {A B} (f : A → B) (l : list A) i :
  map f l !! i = f <$> l !! i.
Proof. revert i. induction l as [|x l IH]; intros [|i]; cbn; auto. Qed.

Lemma parse_tool_schema_cleaned ts parsed ts' :
  parse_tool_schema ts = (Returned parsed, ts') →
  dict_keys (ts_properties ts') = dict_keys (ts_properties ts) ∧
  (∀ i p value value',
     ts_properties ts !! i = Some (p, value) →
     ts_properties ts' !! i = Some (p, value') →
     ∀ k, dict_get value' k
          = if decide (k = "default") then None else dict_get value k) ∧
  parse_tool_schema ts' = (Returned parsed, ts').
Proof.
  intros H. pose proof (parse_tool_schema_again _ _ _ H) as Hagain.
  revert H. unfold parse_tool_schema.
  destruct (ts_description ts) as [description|]; [|done].
  intros [= <- <-]. cbn [ts_properties]. unfold dict_keys.
  split_and!; [| |done].
  - rewrite map_map. by apply map_ext.
  - intros i p value value' Hi Hi' k. unfold dict in Hi, Hi'.
    rewrite lookup_map, Hi in Hi'. cbn in Hi'. injection Hi' as <-.
    apply remove_default_spec.
Qed.

(** X12: when [parse_tool_schema] returns, the property dictionaries of its
    argument have lost their 'default' entry and nothing else: same
    parameters in the same order, same value under every other key.  The
    parsed schema lists exactly those parameters as required, and parsing
    the argument again, as the call left it, gives the same schema and
    changes nothing more. *)
Theorem parse_tool_schema_strips_defaults ts parsed ts' :
  parse_tool_schema ts = (Returned parsed, ts') →
  dict_keys (ts_properties ts') = dict_keys (ts_properties ts) ∧
  (∀ i p value value',
     ts_properties ts !! i = Some (p, value) →
     ts_properties ts' !! i = Some (p, value') →
     ∀ k, dict_get value' k
          = if decide (k = "default") then None else dict_get value k) ∧
  (∃ f params,
     parsed = JObj [("type", JStr "function"); ("function", JObj f)] ∧
     dict_get f "parameters" = Some (JObj params) ∧
     dict_get params "required"
       = Some (JArr (map JStr (dict_keys (ts_properties ts))))) ∧
  parse_tool_schema ts' = (Returned parsed, ts').
Proof.
  intros H. destruct (parse_tool_schema_cleaned _ _ _ H) as (Hk & Hv & Ha).
  split_and!; [done..| |done].
  revert H. unfold parse_tool_schema.
  destruct (ts_description ts) as [description|]; [|done].
  intros [= <- <-]. unfold dict_keys.
  eexists _, _. split; [done|]. cbn [dict_get].
  repeat first [rewrite decide_True by done | rewrite decide_False by done].
  split; [done|]. cbn [dict_get].
  repeat first [rewrite decide_True by done | rewrite decide_False by done].
  by rewrite !map_map.
Qed.

(** *** Registering a tool class *)

Lemma delete_unaccepted_all_accepted keys expected tool_args :
  (∀ k, k ∈ keys → k ∈ expected) →
  delete_unaccepted keys expected tool_args = (Returned tt, tool_args).
Proof.
  induction keys as [|k keys IH]; intros H; cbn; [done|].
  rewrite decide_True by (apply H, list_elem_of_here).
  apply IH. intros k' Hk'. apply H. by apply list_elem_of_further.
Qed.

Lemma delete_unaccepted_some_unaccepted keys expected tool_args k :
  k ∈ keys → k ∉ expected →
  (delete_unaccepted keys expected tool_args).1
  = Raised (RaisedException "RuntimeError"
              "dictionary changed size during iteration").
Proof.
  intros Hin Hout. induction keys as [|k0 keys IH]; cbn.
  - by apply elem_of_nil in Hin.
  - destruct (decide (k0 ∈ expected)) as [Hk0|Hk0]; [|done].
    apply IH. apply elem_of_cons in Hin as [->|]; done.
Qed.

Lemma delete_unaccepted_returned keys expected tool_args u tool_args' :
  delete_unaccepted keys expected tool_args = (Returned u, tool_args') →
  tool_args' = tool_args ∧ ∀ k, k ∈ keys → k ∈ expected.
Proof.
  induction keys as [|k0 keys IH]; cbn.
  - intros [= _ <-]. split; [done|]. intros k Hk. by apply elem_of_nil in Hk.
  - destruct (decide (k0 ∈ expected)) as [Hk0|Hk0]; [|done].
    intros H. destruct (IH H) as [-> Hall]. split; [done|].
    intros k Hk. apply elem_of_cons in Hk as [->|]; auto.
Qed.

(** X13: the loop of [setup_tools] that is to delete the schema properties
    the tool object does not accept never gets past its first deletion: as
    soon as the schema has one property that is not a parameter of the tool
    object, registering the class raises RuntimeError ('dictionary changed
    size during iteration') and no tool is stored. *)
Theorem setup_tool_unaccepted_property_raises
    node_name tool_code sch (tool_obj : Callable World) returns_str obj_repr
    tools p :
  p ∈ dict_keys (ts_properties sch) →
  p ∉ parameters tool_obj →
  (setup_tool node_name tool_code sch (Returned tool_obj) returns_str obj_repr
              tools).1
  = Raised (RaisedException "RuntimeError"
              "dictionary changed size during iteration").
Proof.
  intros Hin Hout. unfold setup_tool.
  pose proof (delete_unaccepted_some_unaccepted _ _ (ts_properties sch) _
                Hin Hout) as H.
  destruct (delete_unaccepted _ _ _) as [o args]. cbn in H. by subst o.
Qed.

Lemma dict_get_set_eq {V} (d : dict V) k v : dict_get (dict_set d k v) k = Some v.
Proof.
  induction d as [|[k0 v0] d IH]; cbn.
  - by rewrite decide_True.
  - destruct (decide (k0 = k)) as [->|Hne]; cbn.
    + by rewrite decide_True.
    + by rewrite decide_False.
Qed.

Lemma dict_get_set_ne {V} (d : dict V) k k' v :
  k' ≠ k → dict_get (dict_set d k v) k' = dict_get d k'.
Proof.
  intros Hne. induction d as [|[k0 v0] d IH]; cbn.
  - by rewrite decide_False.
  - destruct (decide (k0 = k)) as [->|Hk]; cbn.
    + by rewrite !decide_False.
    + by rewrite IH.
Qed.

(** X14: a tool that [setup_tools] does store is consistent: it is found
    under the class name and the other entries of the registry are as they
    were; every parameter in its [params] is accepted by its handler; its
    [params] hold no 'default' entry, being the very property dictionaries
    [parse_tool_schema] cleaned; and its [schema] is the parse of those
    properties. *)
Theorem setup_tool_stores_consistent_tool
    node_name tool_code sch (constructed : outcome (Callable World))
    returns_str obj_repr tools tools' sch' :
  setup_tool node_name tool_code sch constructed returns_str obj_repr tools
    = (Returned tools', sch') →
  ∃ tool,
    dict_get tools' node_name = Some tool ∧
    (∀ other, other ≠ node_name → dict_get tools' other = dict_get tools other) ∧
    name tool = node_name ∧
    constructed = Returned (obj tool) ∧
    returns_str = true ∧
    (∀ p, p ∈ dict_keys (params tool) → p ∈ parameters (obj tool)) ∧
    (∀ p value, (p, value) ∈ params tool → dict_get value "default" = None) ∧
    params tool = ts_properties sch' ∧
    parse_tool_schema sch' = (Returned (schema tool), sch').
Proof.
  unfold setup_tool. destruct constructed as [tool_obj| |]; [|done..].
  destruct (delete_unaccepted _ _ _) as [[u| |] args] eqn:Hdel; [|done..].
  apply delete_unaccepted_returned in Hdel as [-> Hall].
  destruct returns_str; cbn [negb]; [|done].
  destruct (ts_description sch) as [description|] eqn:Hdesc; [|done].
  destruct (parse_tool_schema sch) as [[parsed| |] sch1] eqn:Hparse; [|done..].
  intros [= <- <-].
  destruct (parse_tool_schema_cleaned _ _ _ Hparse)
    as (Hkeys & Hvals & Hagain).
  eexists. split_and!; [apply dict_get_set_eq| |done..| | |done|done].
  - intros other Hne. by apply dict_get_set_ne.
  - cbn. intros p Hp. apply Hall. by rewrite <- Hkeys.
  - cbn. intros p value Hin. apply list_elem_of_lookup in Hin as [i Hi].
    destruct (lookup_lt_is_Some_2 (ts_properties sch) i) as [[p0 v0] Hi0].
    { apply lookup_lt_Some in Hi.
      rewrite <- (length_map fst) in Hi |- *.
      fold (dict_keys (ts_properties sch1)) in Hi.
      fold (dict_keys (ts_properties sch)). by rewrite <- Hkeys. }
    assert (p0 = p) as ->.
    { assert (dict_keys (ts_properties sch1) !! i = Some p) as H1
        by (unfold dict_keys; by rewrite lookup_map, Hi).
      assert (dict_keys (ts_properties sch) !! i = Some p0) as H0
        by (unfold dict_keys; by rewrite lookup_map, Hi0).
      rewrite Hkeys in H1. congruence. }
    by rewrite (Hvals _ _ _ _ Hi0 Hi "default"), decide_True.
Qed.

(** *** Saving the schemas and loading them again *)

Variable yaml_safe_load : string → outcome json.

Lemma dict_set_fresh {V} (d : dict V) k v :
  k ∉ dict_keys d → dict_set d k v = d ++ [(k, v)].
Proof.
  induction d as [|[k0 v0] d IH]; cbn; [done|]. intros Hk.
  rewrite decide_False by (intros ->; apply Hk, list_elem_of_here).
  rewrite IH; [done|]. intros Hin. apply Hk. by apply list_elem_of_further.
Qed.

Lemma index_by_name_distinct acc items names :
  Forall2 (λ item n, function_name_of item = Some (Returned n)) items names →
  NoDup (dict_keys acc ++ names) →
  index_by_name acc items = Some (Returned (acc ++ zip names items)).
Proof.
  intros HF. revert acc. induction HF as [|item n items names Hn HF IH];
    intros acc Hnd; cbn.
  - by rewrite app_nil_r.
  - rewrite Hn. rewrite dict_set_fresh.
    2:{ apply NoDup_app in Hnd as (_ & Hd & _). intros Hin.
        apply (Hd n Hin), list_elem_of_here. }
    rewrite IH.
    + by rewrite <- app_assoc.
    + unfold dict_keys in *. rewrite map_app, <- app_assoc. done.
Qed.

(** A schema that [parse_tool_schema] made is indexed under the title of the
    tool class. *)
Lemma parsed_schema_name ts parsed ts' :
  parse_tool_schema ts = (Returned parsed, ts') →
  function_name_of parsed = Some (Returned (ts_title ts)).
Proof.
  unfold parse_tool_schema. destruct (ts_description ts); [|done].
  intros [= <- _]. unfold function_name_of, subscript. cbn [dict_get].
  repeat first [rewrite decide_True by done | rewrite decide_False by done].
  cbn [dict_get].
  by repeat first [rewrite decide_True by done | rewrite decide_False by done].
Qed.

(** X15: what [save_tools_to_yaml] writes, [setup_and_load_yaml] reads back:
    when the schemas of the registry carry distinct function names and the
    YAML library reads back the document it dumped, loading the key 'tools'
    from the saved file gives the exported schemas, in the order of the
    registry, each under its function name; the file is not touched
    again. *)
Theorem load_after_save filename (st : @store World) names :
  let schemas := map schema (dict_values (registry st)) in
  let saved := (save_tools_to_yaml yaml_dump filename st).2 in
  Forall2 (λ item n, function_name_of item = Some (Returned n)) schemas names →
  NoDup names →
  yaml_safe_load (yaml_dump (JObj [("tools", JArr schemas)]))
    = Returned (JObj [("tools", JArr schemas)]) →
  setup_and_load_yaml yaml_safe_load filename "tools" saved
  = (Some (Returned (zip names schemas)), saved).
Proof.
  intros schemas saved Hnames Hnd Hyaml. subst saved.
  unfold save_tools_to_yaml. cbn [snd]. unfold setup_and_load_yaml.
  cbn [files]. rewrite lookup_insert_eq. cbn [files].
  rewrite lookup_insert_eq. cbn [default id]. fold schemas. rewrite Hyaml.
  unfold subscript.
  cbn [dict_get]. rewrite decide_True by done. cbn [index_items].
  by rewrite (index_by_name_distinct [] _ _ Hnames Hnd).
Qed.

End export_facts.

(** ** The completion client *)

Section completion_facts.
Import ollama_api utils_clients.

Context {World : Type}.
Variable client_chat : World → list (dict field) → chat_end * World.
Variable json_dumps : gmap string pyval → string.
Variable json_loads : string → outcome (gmap string pyval).

Abbreviation chat_complete :=
  (utils_clients.chat_complete client_chat json_dumps json_loads).

(** X16: [chat_complete] never raises.  Its two-message context always
    passes the validation of the chat function, so the backend is asked
    exactly once, with the system line and the prompt; a ResponseError comes
    back as the text of the error message, any other exception (of the
    backend, or of the JSON decoder on the tool calls of the answer) as the
    empty string. *)
Theorem chat_complete_never_raises prompt (b : @backend World) :
  let request :=
    [[("content", FStr "You are a helpful assistant."); ("role", FStr "system")];
     [("content", FStr prompt); ("role", FStr "user")]] in
  (∀ e, (chat_complete prompt b).1 ≠ Raised e) ∧
  requests (chat_complete prompt b).2 = requests b ++ [request] ∧
  match (client_chat (bworld b) request).1 with
  | Response c =>
      (chat_complete prompt b).1
      = match message_from_api_response json_loads c with
        | Returned m => Returned (PyStr (completion_content c))
        | Raised _ => Returned (PyStr EmptyString)
        | Unfinished => Unfinished
        end
  | ResponseError error =>
      (chat_complete prompt b).1
      = Returned (PyStr ("There was an API error. Please try again.. "
                         +:+ error))
  | OtherError _ => (chat_complete prompt b).1 = Returned (PyStr EmptyString)
  end.
Proof.
  intros request. subst request.
  unfold utils_clients.chat_complete, chat_func. cbn.
  destruct (client_chat (bworld b) _) as [[c|error|e] w];
    cbn; [|by split_and!..].
  unfold message_from_api_response.
  destruct (completion_tool_calls c) as [l|]; [|by split_and!].
  destruct (parse_tool_calls json_loads l); by split_and!.
Qed.

End completion_facts.

(** ** The Ollama chat function *)

Section chat_facts.
Import ollama_api.

Context {World : Type}.
Variable client_chat : World → list (dict field) → chat_end * World.
Variable json_dumps : gmap string pyval → string.
Variable json_loads : string → outcome (gmap string pyval).

Abbreviation chat_func := (ollama_api.chat_func client_chat json_dumps json_loads).
Abbreviation message_to_dict := (ollama_api.message_to_dict json_dumps).

Implicit Types (l messages : list Message) (b : @backend World).

Lemma mod2_even n : (n mod 2 =? 0)%nat = Nat.even n.
Proof.
  destruct (Nat.even n) eqn:E.
  - apply Nat.even_spec in E as [k ->]. apply Nat.eqb_eq.
    by rewrite Nat.mul_comm, Nat.Div0.mod_mul.
  - apply Nat.eqb_neq. intros H.
    assert (Nat.odd n = true) as Ho by (by rewrite <- Nat.negb_even, E).
    apply Nat.odd_spec in Ho as [k ->].
    rewrite Nat.add_comm, Nat.mul_comm, Nat.Div0.mod_add in H. done.
Qed.

(** The validation loop finds nothing to raise exactly when the messages
    alternate, counting from [idx]. *)
Lemma check_turns_None idx l :
  check_turns idx l = None ↔
  ∀ i msg, l !! i = Some msg →
    if Nat.even (idx + i) then isinstance_User_or_Tool msg = true
    else isinstance_AssistantMessage msg = true.
Proof.
  revert idx. induction l as [|m l IH]; intros idx; cbn [check_turns].
  - split; [|done]. intros _ i msg H. by rewrite lookup_nil in H.
  - rewrite mod2_even. split.
    + intros H [|i] msg Hi; cbn in Hi.
      * injection Hi as ->. rewrite Nat.add_0_r.
        destruct (Nat.even idx);
          [destruct (isinstance_User_or_Tool msg)
          |destruct (isinstance_AssistantMessage msg)]; done.
      * replace (idx + S i) with (S idx + i) by lia.
        apply (IH (S idx)); [|done].
        destruct (Nat.even idx);
          [destruct (isinstance_User_or_Tool m)
          |destruct (isinstance_AssistantMessage m)]; done.
    + intros H. pose proof (H 0 m eq_refl) as H0. rewrite Nat.add_0_r in H0.
      assert (check_turns (S idx) l = None) as Hrest.
      { apply IH. intros i msg Hi.
        replace (S idx + i) with (idx + S i) by lia. by apply H. }
      destruct (Nat.even idx); rewrite H0; cbn; exact Hrest.
Qed.

Lemma check_turns_alternation l :
  check_turns 0 l = None ↔ strict_alternation l.
Proof. apply (check_turns_None 0). Qed.

Lemma check_turns_Some idx l e :
  check_turns idx l = Some e →
  e = ValueError "Expected UserMessage or ToolMessage" ∨
  e = ValueError "Expected AssistantMessage".
Proof.
  revert idx. induction l as [|m l IH]; intros idx; cbn [check_turns]; [done|].
  destruct (idx mod 2 =? 0)%nat.
  - destruct (isinstance_User_or_Tool m); cbn; [apply IH|]. intros [= <-]. by left.
  - destruct (isinstance_AssistantMessage m); cbn; [apply IH|]. intros [= <-]. by right.
Qed.

(** The slice [messages[start_idx:]] is the list without its leading
    SystemMessage, if it has one. *)
Lemma drop_start_idx m0 l :
  drop (if isinstance_SystemMessage m0 then 1 else 0) (m0 :: l)
  = after_system (m0 :: l).
Proof. by destruct m0. Qed.

(** C10: the chat function raises ValueError on an empty message list; on a
    non-empty one whose messages, a leading SystemMessage skipped, do not
    alternate (UserMessage or ToolMessage at the even offsets,
    AssistantMessage at the odd ones) it raises ValueError too, and in both
    cases the backend is not reached.  A request reaches the backend only for
    a context that alternates; for such a context the request is made, and a
    ResponseError of the backend comes back as a UserMessage carrying
    'There was an API error. Please try again.. ' and the error text, not as
    an exception. *)
Theorem chat_func_validates_alternation messages b :
  (messages = [] →
     chat_func messages b
     = (Raised (ValueError "Messages list cannot be empty"), b)) ∧
  (messages ≠ [] → ¬ strict_alternation (after_system messages) →
     ∃ msg, chat_func messages b = (Raised (ValueError msg), b)) ∧
  (requests (chat_func messages b).2 ≠ requests b →
     messages ≠ [] ∧ strict_alternation (after_system messages)) ∧
  (messages ≠ [] → strict_alternation (after_system messages) →
     requests (chat_func messages b).2
       = requests b ++ [map message_to_dict messages] ∧
     ∀ error w,
       client_chat (bworld b) (map message_to_dict messages)
         = (ResponseError error, w) →
       (chat_func messages b).1
       = Returned (UserMessage
           ("There was an API error. Please try again.. " +:+ error))).
Proof.
  destruct messages as [|m0 l].
  { split_and!; try done. }
  unfold ollama_api.chat_func. rewrite drop_start_idx.
  destruct (check_turns 0 (after_system (m0 :: l))) as [e|] eqn:Hc.
  - assert (¬ strict_alternation (after_system (m0 :: l))) as Hno.
    { intros Ha. apply check_turns_alternation in Ha. congruence. }
    split_and!; try done.
    intros _ _. destruct (check_turns_Some _ _ _ Hc) as [-> | ->]; by eexists.
  - assert (strict_alternation (after_system (m0 :: l))) as Hyes.
    { by apply check_turns_alternation. }
    split_and!; try done.
    destruct (client_chat _ _) as [[c|error|e] w] eqn:Hb; cbn.
    all: split; [done|]; intros error' w' [= <- <-] || intros ? ? [=]; done.
Qed.

(** *** Messages to dictionaries and back *)

Abbreviation dict_to_message := (ollama_api.dict_to_message json_loads).
Abbreviation parse_tool_calls := (ollama_api.parse_tool_calls json_loads).
Abbreviation message_from_api_response :=
  (ollama_api.message_from_api_response json_loads).

Lemma parse_sent_tool_calls (calls : list ToolCall) :
  (∀ tc, tc ∈ calls →
     json_loads (json_dumps (function_args tc)) = Returned (function_args tc)) →
  parse_tool_calls (map (toolcall_to_dict json_dumps) calls)
  = Returned (map (λ tc, mkToolCall (tool_call_id tc) "function"
                                    (function_name tc) (function_args tc))
                  calls).
Proof.
  induction calls as [|tc calls IH]; intros H; cbn; [done|].
  rewrite H by apply list_elem_of_here.
  rewrite IH; [done|]. intros tc' Hin. apply H. by apply list_elem_of_further.
Qed.

(** X8: [dict_to_message] undoes [message_to_dict], up to the type of the
    tool calls, which comes back as 'function' whatever it was, and provided
    [json.loads] undoes [json.dumps] on the arguments of the message's tool
    calls.  The one message that does not come back is a ToolMessage whose
    content is [None]: its dictionary has no 'content' and [dict_to_message]
    raises KeyError. *)
Theorem message_to_dict_and_back (m : Message) :
  (∀ c calls tc, m = AssistantMessage c (Some calls) → tc ∈ calls →
     json_loads (json_dumps (function_args tc)) = Returned (function_args tc)) →
  dict_to_message (message_to_dict m)
  = Some (match m with
          | ToolMessage None _ => Raised (KeyError "content")
          | _ => Returned (as_function_calls m)
          end).
Proof.
  intros Hjson. unfold ollama_api.dict_to_message, string_item.
  destruct m as [c|c|c [calls|]|[c|] i]; cbn [ollama_api.message_to_dict dict_get];
    repeat first [rewrite decide_True by done | rewrite decide_False by done];
    try done.
  cbn [tool_calls_of_field].
  rewrite parse_sent_tool_calls by (intros tc Hin; by eapply Hjson).
  done.
Qed.

(** X9: the tool calls of an API response are parsed all or none.  When the
    arguments of every call are JSON, the calls come back one for one, in
    order, with the id, type and name the API gave; when some are not, the
    message is not built and the decoder's exception for the first such call
    is raised. *)
Theorem tool_calls_parse_all_or_raise (c : completion) :
  (∀ sent : list api_tool_call, completion_tool_calls c = Some sent →
     (∀ tc, tc ∈ sent → ∃ args, json_loads (fn_arguments tc) = Returned args) →
     ∃ calls,
       message_from_api_response c
         = Returned (AssistantMessage (completion_content c) (Some calls)) ∧
       Forall2 (λ tc call,
                  tool_call_id call = id tc ∧ tool_type call = type_ tc ∧
                  function_name call = fn_name tc ∧
                  json_loads (fn_arguments tc) = Returned (function_args call))
               sent calls) ∧
  (∀ (good : list api_tool_call) bad rest e,
     completion_tool_calls c = Some (good ++ bad :: rest) →
     (∀ tc, tc ∈ good → ∃ args, json_loads (fn_arguments tc) = Returned args) →
     json_loads (fn_arguments bad) = Raised e →
     message_from_api_response c = Raised e).
Proof.
  unfold ollama_api.message_from_api_response. split.
  - intros sent -> Hl.
    assert (∃ calls, parse_tool_calls sent = Returned calls ∧
      Forall2 (λ tc call,
                 tool_call_id call = id tc ∧ tool_type call = type_ tc ∧
                 function_name call = fn_name tc ∧
                 json_loads (fn_arguments tc) = Returned (function_args call))
              sent calls) as (calls & -> & HF); [|by exists calls].
    induction sent as [|tc sent IH]; cbn.
    + by exists [].
    + destruct (Hl tc) as [args Hargs]; [apply list_elem_of_here|].
      destruct IH as (calls & -> & HF).
      { intros tc' Hin. apply Hl. by apply list_elem_of_further. }
      rewrite Hargs. eexists. split; [done|]. by constructor.
  - intros good bad rest e -> Hgood Hbad.
    assert (parse_tool_calls (good ++ bad :: rest) = Raised e) as ->; [|done].
    induction good as [|tc good IH]; cbn.
    + by rewrite Hbad.
    + destruct (Hgood tc) as [args ->]; [apply list_elem_of_here|].
      rewrite IH; [done|]. intros tc' Hin. apply Hgood.
      by apply list_elem_of_further.
Qed.

(** *** Conversations through the chat function *)

(** X10: whatever [chat_func] returns came from exactly one request to the
    backend, made with the dictionaries of the messages in order, and is
    either an AssistantMessage or the UserMessage that reports an API
    error; it never returns a system or a tool message. *)
Theorem chat_func_returns_after_one_request messages b m b' :
  chat_func messages b = (Returned m, b') →
  requests b' = requests b ++ [map message_to_dict messages] ∧
  ((∃ c calls, m = AssistantMessage c calls) ∨
   (∃ error,
      m = UserMessage ("There was an API error. Please try again.. "
                       +:+ error))).
Proof.
  unfold ollama_api.chat_func. destruct messages as [|m0 l]; [done|].
  destruct (check_turns 0 _); [done|].
  destruct (client_chat _ _) as [[c|error|e] w]; [| |done].
  - unfold ollama_api.message_from_api_response.
    destruct (completion_tool_calls c) as [calls|].
    + destruct (ollama_api.parse_tool_calls _ _); [|done..].
      intros [= <- <-]. split; [done|]. left. by eexists _, _.
    + intros [= <- <-]. split; [done|]. left. by eexists _, _.
  - intros [= <- <-]. split; [done|]. right. by eexists.
Qed.

Lemma check_turns_app idx l l' :
  check_turns idx (l ++ l')
  = match check_turns idx l with
    | Some e => Some e
    | None => check_turns (idx + length l) l'
    end.
Proof.
  revert idx. induction l as [|m l IH]; intros idx; cbn [check_turns app length].
  - by rewrite Nat.add_0_r.
  - rewrite IH. replace (S idx + length l) with (idx + S (length l)) by lia.
    destruct (idx mod 2 =? 0)%nat;
      [destruct (isinstance_User_or_Tool m)
      |destruct (isinstance_AssistantMessage m)]; done.
Qed.

Lemma after_system_app messages more :
  messages ≠ [] →
  after_system (messages ++ more) = after_system messages ++ more.
Proof. destruct messages as [|[] l]; done. Qed.

(** X11: a conversation that passed the validation and ends on a user or
    tool turn passes it again once the assistant's reply and a further user
    or tool message are added, and reaches the backend; if what is added is
    the error UserMessage of a failed call instead, every later call on the
    conversation raises ValueError 'Expected AssistantMessage' without
    reaching the backend. *)
Theorem conversation_continues_or_is_stuck messages b :
  messages ≠ [] →
  strict_alternation (after_system messages) →
  Nat.odd (length (after_system messages)) = true →
  (∀ c calls next,
     isinstance_User_or_Tool next = true →
     requests
       (chat_func (messages ++ [AssistantMessage c calls; next]) b).2
     = requests b
         ++ [map message_to_dict
               (messages ++ [AssistantMessage c calls; next])]) ∧
  (∀ error more,
     chat_func
       (messages
          ++ UserMessage ("There was an API error. Please try again.. "
                          +:+ error) :: more) b
     = (Raised (ValueError "Expected AssistantMessage"), b)).
Proof.
  intros Hne Halt Hodd.
  apply check_turns_alternation in Halt.
  assert (Hidx : (length (after_system messages) mod 2 =? 0)%nat = false).
  { by rewrite mod2_even, <- Nat.negb_odd, Hodd. }
  assert (Hidx' : (S (length (after_system messages)) mod 2 =? 0)%nat = true).
  { by rewrite mod2_even, Nat.even_succ. }
  split.
  - intros c calls next Hnext. unfold ollama_api.chat_func.
    destruct (messages ++ [AssistantMessage c calls; next]) as [|m0 l] eqn:E.
    { by destruct messages. }
    rewrite drop_start_idx, <- E, after_system_app, check_turns_app, Halt by done.
    rewrite Nat.add_0_l. cbn [check_turns negb isinstance_AssistantMessage].
    rewrite Hidx, Hidx', Hnext. cbn [negb].
    by destruct (client_chat _ _) as [[?|?|?] ?].
  - intros error more. unfold ollama_api.chat_func.
    destruct (messages ++ _ :: more) as [|m0 l] eqn:E.
    { by destruct messages. }
    rewrite drop_start_idx, <- E, after_system_app, check_turns_app, Halt by done.
    rewrite Nat.add_0_l. cbn [check_turns]. by rewrite Hidx.
Qed.

End chat_facts.

(** ** The properties on the stubs *)

Section scenario_facts.
Import agent scenario.

(** The adapter asks for [echo] and [failing] in one message: only [echo]
    runs, with 'volume' dropped, and one ToolMessage precedes the next
    adapter call. *)
Lemma only_first_tool_call_runs_witness :
  ∃ s' tool_response,
    let appended :=
      [AssistantMessage EmptyString (Some [echo_call; failing_call]);
       ToolMessage tool_response (Some "call_1") (Some "echo")] in
    dispatch_body two_calls repr_args asked = (Returned true, s') ∧
    dispatch_messages s' = dispatch_messages asked ++ appended ∧
    messages s' = messages asked ∧
    trace s'
      = trace asked ++
          [LlmCall (context_of asked);
           ToolRun "echo" (reconcile.effective_args ["text"]
                             (function_args echo_call))] ∧
    ∀ fuel, ∃ more,
      trace (dispatch_loop two_calls repr_args (S (S fuel)) asked).2
      = trace asked ++
          LlmCall (context_of asked)
          :: [ToolRun "echo" (reconcile.effective_args ["text"]
                                (function_args echo_call))]
          ++ LlmCall (context_of asked ++ appended) :: more.
Proof.
  apply (only_first_tool_call_runs two_calls repr_args asked EmptyString
           echo_call [failing_call] 1).
  - vm_compute; reflexivity.
  - intros tool H. vm_compute in H. injection H as <-. vm_compute. discriminate.
Defined.

(** The handler of [failing] raises 'boom': the working set gets the error
    text and the loop goes on. *)
Lemma handler_exception_becomes_tool_message_witness :
  ∃ s',
    let appended :=
      [AssistantMessage EmptyString (Some [failing_call]);
       ToolMessage "An error occurred while running the tool: boom"
                   (Some "call_2") (Some "failing")] in
    dispatch_body raising repr_args asked = (Returned true, s') ∧
    dispatch_messages s' = dispatch_messages asked ++ appended ∧
    (∀ fuel, dispatch_loop raising repr_args (S fuel) asked
             = dispatch_loop raising repr_args fuel s') ∧
    ∀ fuel, ∃ more,
      trace (dispatch_loop raising repr_args (S (S fuel)) asked).2
      = trace asked ++
          [LlmCall (context_of asked);
           ToolRun "failing" (reconcile.effective_args ["path"] ∅);
           LlmCall (context_of asked ++ appended)] ++ more.
Proof.
  apply (handler_exception_becomes_tool_message raising repr_args asked EmptyString
           failing_call [] 1 failing (RaisedException "RuntimeError" "boom") 1).
  - vm_compute; reflexivity.
  - vm_compute; reflexivity.
  - vm_compute; reflexivity.
Defined.

(** The adapter asks for 'does_not_exist'. *)
Lemma unknown_tool_reported_witness :
  ∃ s',
    let appended :=
      [AssistantMessage EmptyString (Some [unknown_call]);
       ToolMessage "The LLM tried to call a function that does not exist."
                   (Some "call_3") (Some "does_not_exist")] in
    dispatch_body astray repr_args asked = (Returned true, s') ∧
    dispatch_messages s' = dispatch_messages asked ++ appended ∧
    trace s' = trace asked ++ [LlmCall (context_of asked)] ∧
    world s' = 1 ∧
    ∀ fuel, ∃ more,
      trace (dispatch_loop astray repr_args (S (S fuel)) asked).2
      = trace asked ++
          [LlmCall (context_of asked); LlmCall (context_of asked ++ appended)]
          ++ more.
Proof.
  apply (unknown_tool_reported astray repr_args asked EmptyString unknown_call [] 1).
  - vm_compute; reflexivity.
  - vm_compute; reflexivity.
Defined.

(** C6: the adapter answers with an assistant message whose [tool_calls] is
    the empty list; [dispatch] raises IndexError instead of ending with
    'hello' as the final answer. *)
Theorem empty_tool_calls_crash_dispatch :
  (dispatch (scripted [AssistantMessage "hello" (Some [])]) repr_args
            3 "hi" fresh).1
  = Raised (IndexError "list index out of range").
Proof. vm_compute. reflexivity. Qed.

(** With [tool_calls] absent, the same answer ends the dispatch. *)
Example absent_tool_calls_end_dispatch :
  let run := dispatch (scripted [AssistantMessage "hello" None]) repr_args
                      3 "hi" fresh in
  run.1 = Returned tt ∧
  dispatch_messages run.2
  = [UserMessage (question_header +:+ "hi"); AssistantMessage "hello" None] ∧
  trace run.2 = [LlmCall (context_of asked)].
Proof. cbn zeta. split_and!; vm_compute; reflexivity. Qed.

(** C5 fails as stated: on the raw prompt 'hi', a handler that accepts
    'user_prompt' is entered with the text the LLM supplied, and without any
    'user_prompt' keyword when the LLM supplied none. *)
Lemma user_prompt_is_not_the_raw_text :
  (∃ kwargs,
     trace (dispatch injecting repr_args 2 "hi" fresh).2 !! 1
       = Some (ToolRun "prompted" kwargs) ∧
     kwargs !! "user_prompt" = Some (PyStr "injected") ∧
     kwargs !! "user_prompt" ≠ Some (PyStr "hi")) ∧
  (∃ kwargs,
     trace (dispatch omitting repr_args 2 "hi" fresh).2 !! 1
       = Some (ToolRun "prompted" kwargs) ∧
     kwargs !! "user_prompt" = None).
Proof.
  split.
  - exists (reconcile.effective_args ["user_prompt"; "query"]
                                     (function_args injected_call)).
    split_and!; [vm_compute; reflexivity..|]. vm_compute. discriminate.
  - exists (reconcile.effective_args ["user_prompt"; "query"]
                                     (function_args omitted_call)).
    split; vm_compute; reflexivity.
Qed.

(** The handler of [prompted] is entered with the injected text. *)
Lemma user_prompt_is_what_the_llm_supplied_witness :
  ∃ kwargs,
    trace (dispatch_body injecting repr_args asked).2
      = trace asked ++ [LlmCall (context_of asked); ToolRun "prompted" kwargs] ∧
    kwargs !! "user_prompt" = Some (PyStr "injected").
Proof.
  apply (user_prompt_is_what_the_llm_supplied injecting repr_args asked EmptyString
           injected_call [] 1 prompted).
  - vm_compute; reflexivity.
  - vm_compute; reflexivity.
  - apply list_elem_of_here.
Defined.

(** C8 fails as stated: [interact] hands [None] to its caller, not the
    content 'Hello' of the final message. *)
Lemma interact_returns_none :
  let run :=
    interact answering (utils.highlight_code pygments 2) repr_args 3 "hi"
             fresh in
  run.1 = Returned PyNone ∧
  content <$> last (messages run.2) = Some "Hello" ∧
  run.1 ≠ Returned (PyStr "Hello").
Proof.
  cbn zeta. split_and!; [vm_compute; reflexivity..|].
  vm_compute. discriminate.
Qed.

(** One question, answered with a block of code: the session is the working
    set, and what [highlight_code] makes of the answer is printed last. *)
Lemma interact_extends_session_and_prints_witness :
  let render := utils.highlight_code pygments 2 in
  let i := interact coding render repr_args 3 "hi" fresh in
  let f := interact_functional coding render repr_args 3 "hi" fresh in
  let leading_tool :=
    debug (config fresh) && starts_with_tool (messages fresh) in
  ∃ final,
    last [UserMessage (question_header +:+ "hi"); coded_answer] = Some final ∧
    messages i.2
      = messages fresh ++ [UserMessage (question_header +:+ "hi"); coded_answer] ∧
    messages f.2
      = messages fresh ++ [UserMessage (question_header +:+ "hi"); coded_answer] ∧
    (contains "```python" (content final) = false →
     render (content final) (colorscheme (config fresh))
       = Some (content final)) ∧
    match render (content final) (colorscheme (config fresh)) with
    | Some out =>
        contains "```python" out = false ∧
        f.1 = Returned (PyStr (content final)) ∧
        last (stdout f.2) = Some out ∧
        if leading_tool
        then i.1 = Raised (UnboundLocalError "cannot access local variable 'color' where it is not associated with a value")
        else i.1 = Returned PyNone ∧ last (stdout i.2) = Some out
    | None =>
        f.1 = Unfinished ∧
        i.1 = if leading_tool
              then Raised (UnboundLocalError "cannot access local variable 'color' where it is not associated with a value")
              else Unfinished
    end.
Proof.
  apply (interact_extends_session_and_prints coding pygments repr_args
           2 3 "hi" fresh
           (mkState (mkConfig "monokai" false) registry []
              [UserMessage (question_header +:+ "hi"); coded_answer] 1
              ["No tool selected"] [LlmCall (context_of asked)])).
  vm_compute; reflexivity.
Defined.

(** [parse_tool_schema] on the schema of [echo]: the 'default' entry goes,
    in the result and in the argument. *)
Example parse_echo_schema :
  utils.parse_tool_schema echo_json_schema
  = (Returned
       (JObj [("type", JStr "function");
              ("function",
               JObj [("name", JStr "echo");
                     ("description", JStr "Repeat the text.");
                     ("parameters",
                      JObj [("type", JStr "object");
                            ("properties",
                             JObj [("text", JObj [("title", JStr "Text");
                                                  ("type", JStr "string")])]);
                            ("required", JArr [JStr "text"]);
                            ("additionalProperties", JBool false)]);
                     ("strict", JBool true)])]),
     utils.mkSchema (Some "Repeat the text.") "echo"
       [("text", [("title", JStr "Text"); ("type", JStr "string")])]).
Proof. vm_compute. reflexivity. Qed.

(** Two exports of the shelf, one after the other. *)
Example export_shelf_twice :
  let first := utils.save_tools_to_yaml flat_dump "tools.yaml" shelf in
  let second := utils.save_tools_to_yaml flat_dump "tools.yaml" first.2 in
  first.1 = [JStr "schema of echo"; JStr "schema of failing"] ∧
  second.1 = [JStr "schema of echo"; JStr "schema of failing"] ∧
  utils.console second.2
  = ["Saved tools.yaml" +:+ nl; "Saved tools.yaml" +:+ nl].
Proof. cbn zeta. split_and!; vm_compute; reflexivity. Qed.

(** A well-formed context reaches the backend, whose error comes back as a
    UserMessage; two user messages in a row do not reach it. *)
Lemma chat_func_validates_alternation_witness :
  (ollama_api.requests
     (ollama_api.chat_func down dumps loads one_question idle).2
     = [map (ollama_api.message_to_dict dumps) one_question] ∧
   (ollama_api.chat_func down dumps loads one_question idle).1
     = Returned (ollama_api.UserMessage
         "There was an API error. Please try again.. connection refused")) ∧
  ∃ msg,
    ollama_api.chat_func down dumps loads two_questions idle
    = (Raised (ValueError msg), idle).
Proof.
  split.
  - destruct (chat_func_validates_alternation down dumps loads one_question idle)
      as (_ & _ & _ & H).
    destruct H as [Hreq Herr].
    + discriminate.
    + apply check_turns_alternation. vm_compute. reflexivity.
    + split; [exact Hreq|]. apply (Herr "connection refused" tt).
      vm_compute. reflexivity.
  - destruct (chat_func_validates_alternation down dumps loads two_questions idle)
      as (_ & H & _).
    apply H.
    + discriminate.
    + intros Ha. apply check_turns_alternation in Ha. vm_compute in Ha.
      discriminate.
Defined.

(** *** The further properties on the stubs *)

(** X1: the working set after the two-call answer and the final one. *)
Lemma dispatch_leaves_rounds_then_final_witness :
  ∃ ws,
    dispatch_messages (dispatch two_calls repr_args 3 "hi" fresh).2
      = UserMessage (question_header +:+ "hi") :: ws ∧
    rounds_then_final ws = true.
Proof.
  apply (dispatch_leaves_rounds_then_final two_calls repr_args 3 "hi" fresh).
  vm_compute; reflexivity.
Defined.

(** X3: the empty list of tool calls makes [interact] raise, and the session
    stays empty. *)
Lemma interact_raises_with_session_untouched_witness :
  let failed := (dispatch empty_calls repr_args 3 "hi" fresh).2 in
  interact empty_calls render repr_args 3 "hi" fresh
    = (Raised (IndexError "list index out of range"), failed) ∧
  interact_functional empty_calls render repr_args 3 "hi" fresh
    = (Raised (IndexError "list index out of range"), failed) ∧
  messages failed = messages fresh.
Proof.
  apply (interact_raises_with_session_untouched empty_calls render repr_args
           3 "hi" fresh).
  vm_compute; reflexivity.
Defined.

(** X5: from the empty session. *)
Lemma session_keeps_starting_with_user_witness :
  let after := (interact answering render repr_args 3 "hi" fresh).2 in
  let after_f :=
    (interact_functional answering render repr_args 3 "hi" fresh).2 in
  (∀ m, head (messages after) = Some m → ∃ c, m = UserMessage c) ∧
  (∀ m, head (messages after_f) = Some m → ∃ c, m = UserMessage c) ∧
  ∀ s0 : @state nat, (print_message_history (messages after) s0).1 = Returned tt.
Proof.
  apply (session_keeps_starting_with_user answering render repr_args
           3 "hi" fresh).
  intros m H. vm_compute in H. discriminate H.
Defined.

(** X6: the second question comes after the first exchange, question and
    answer both. *)
Lemma next_dispatch_sees_previous_exchange_witness :
  let s1 := (interact_functional answering render repr_args 3 "hi" fresh).2 in
  ∃ s0 more,
    dispatch answering repr_args 3 "hi" fresh = (Returned tt, s0) ∧
    head (dispatch_messages s0) = Some (UserMessage (question_header +:+ "hi")) ∧
    messages s1 = messages fresh ++ dispatch_messages s0 ∧
    trace (dispatch answering repr_args 1 "and then?" s1).2
    = trace s1 ++
        LlmCall ([SystemMessage system_prompts.AGENT_PROMPT] ++ messages fresh
                   ++ dispatch_messages s0
                   ++ [UserMessage (question_header +:+ "and then?")]) :: more.
Proof.
  apply (next_dispatch_sees_previous_exchange answering render repr_args
           3 "hi" fresh (PyStr "Hello")).
  vm_compute; reflexivity.
Defined.

(** X8: a tool call of type 'custom' comes back as 'function'. *)
Lemma message_to_dict_and_back_witness :
  ollama_api.dict_to_message loads (ollama_api.message_to_dict dumps asking)
  = Some (Returned
            (ollama_api.AssistantMessage "Let me look."
               (Some [ollama_api.mkToolCall "call_9" "function" "echo" ∅]))).
Proof.
  apply (message_to_dict_and_back dumps loads asking).
  intros c calls tc [= <- <-] Hin.
  apply list_elem_of_singleton in Hin as ->. reflexivity.
Defined.

(** X9: one call parses; with a second whose arguments are cut short the
    decoder's error comes out. *)
Lemma tool_calls_parse_all_or_raise_witness :
  (∃ calls,
     ollama_api.message_from_api_response picky_loads
       (ollama_api.mkCompletion "x" (Some [good_call]))
     = Returned (ollama_api.AssistantMessage "x" (Some calls))) ∧
  ollama_api.message_from_api_response picky_loads
    (ollama_api.mkCompletion "x" (Some [good_call; bad_call]))
  = Raised (ValueError "Expecting value").
Proof.
  split.
  - destruct (tool_calls_parse_all_or_raise picky_loads
                (ollama_api.mkCompletion "x" (Some [good_call]))) as [H _].
    destruct (H [good_call] eq_refl) as (calls & Hc & _).
    + intros tc Hin. apply list_elem_of_singleton in Hin as ->.
      exists ∅. vm_compute. reflexivity.
    + by exists calls.
  - destruct (tool_calls_parse_all_or_raise picky_loads
                (ollama_api.mkCompletion "x" (Some [good_call; bad_call])))
      as [_ H].
    apply (H [good_call] bad_call []).
    + reflexivity.
    + intros tc Hin. apply list_elem_of_singleton in Hin as ->.
      exists ∅. vm_compute. reflexivity.
    + vm_compute. reflexivity.
Defined.

(** X10: the polite backend is asked once and its answer is an
    AssistantMessage. *)
Lemma chat_func_returns_after_one_request_witness :
  let b' := (ollama_api.chat_func polite dumps loads one_question idle).2 in
  ollama_api.requests b'
    = ollama_api.requests idle
        ++ [map (ollama_api.message_to_dict dumps) one_question] ∧
  ((∃ c calls, ollama_api.AssistantMessage "Hi." None
               = ollama_api.AssistantMessage c calls) ∨
   (∃ error,
      ollama_api.AssistantMessage "Hi." None
      = ollama_api.UserMessage
          ("There was an API error. Please try again.. " +:+ error))).
Proof.
  apply (chat_func_returns_after_one_request polite dumps loads one_question
           idle).
  vm_compute. reflexivity.
Defined.

(** X11: the one-question conversation goes on, or is stuck behind the
    error message. *)
Lemma conversation_continues_or_is_stuck_witness :
  (∀ c calls next,
     ollama_api.isinstance_User_or_Tool next = true →
     ollama_api.requests
       (ollama_api.chat_func down dumps loads
          (one_question ++ [ollama_api.AssistantMessage c calls; next]) idle).2
     = ollama_api.requests idle
         ++ [map (ollama_api.message_to_dict dumps)
               (one_question ++ [ollama_api.AssistantMessage c calls; next])]) ∧
  (∀ error more,
     ollama_api.chat_func down dumps loads
       (one_question
          ++ ollama_api.UserMessage
               ("There was an API error. Please try again.. " +:+ error)
             :: more) idle
     = (Raised (ValueError "Expected AssistantMessage"), idle)).
Proof.
  apply (conversation_continues_or_is_stuck down dumps loads one_question idle).
  - discriminate.
  - apply check_turns_alternation. vm_compute. reflexivity.
  - vm_compute. reflexivity.
Defined.

(** X12: the schema of [echo] loses its default. *)
Lemma parse_tool_schema_strips_defaults_witness :
  let ts' := (utils.parse_tool_schema echo_json_schema).2 in
  dict_keys (utils.ts_properties ts') = ["text"] ∧
  utils.ts_properties ts'
    = [("text", [("title", JStr "Text"); ("type", JStr "string")])].
Proof.
  destruct (utils.parse_tool_schema echo_json_schema) as [o ts'] eqn:E.
  assert (∃ parsed, o = Returned parsed) as [parsed ->].
  { vm_compute in E. injection E as <- _. by eexists. }
  destruct (parse_tool_schema_strips_defaults _ _ _ E) as (Hk & _ & _ & _).
  cbn zeta. split; [exact Hk|].
  vm_compute in E. by injection E as _ <-.
Defined.

(** X13: a schema that advertises 'volume' for [echo]. *)
Lemma setup_tool_unaccepted_property_raises_witness :
  (utils.setup_tool "echo" "class echo: ..." loud_json_schema
     (Returned (obj echo)) true "<echo object>" ([] : dict (Tool nat))).1
  = Raised (RaisedException "RuntimeError"
              "dictionary changed size during iteration").
Proof.
  apply (setup_tool_unaccepted_property_raises "echo" "class echo: ..."
           loud_json_schema (obj echo) true "<echo object>" [] "volume").
  - vm_compute. apply list_elem_of_further, list_elem_of_here.
  - vm_compute. intros H. apply list_elem_of_singleton in H. discriminate H.
Defined.

(** X14: the class of [echo], registered from its own schema. *)
Lemma setup_tool_stores_consistent_tool_witness :
  ∃ tool,
    dict_get registered_echo "echo" = Some tool ∧
    name tool = "echo" ∧
    (∀ p, p ∈ dict_keys (params tool) → p ∈ parameters (obj tool)) ∧
    (∀ p value, (p, value) ∈ params tool → dict_get value "default" = None).
Proof.
  destruct (setup_tool_stores_consistent_tool "echo" "class echo: ..."
              echo_json_schema (Returned (obj echo)) true "<echo object>"
              ([] : dict (Tool nat)) registered_echo
              (utils.parse_tool_schema echo_json_schema).2)
    as (tool & Hget & _ & Hname & _ & _ & Hacc & Hdef & _).
  - vm_compute. reflexivity.
  - exists tool. by split_and!.
Defined.

(** X15: the library saved and loaded. *)
Lemma load_after_save_witness :
  let saved := (utils.save_tools_to_yaml flat_dump "tools.yaml" library).2 in
  utils.setup_and_load_yaml flat_load "tools.yaml" "tools" saved
  = (Some (Returned (zip ["echo"] (map schema (dict_values registered_echo)))),
     saved).
Proof.
  apply (load_after_save flat_dump flat_load "tools.yaml" library ["echo"]).
  - vm_compute. constructor; [reflexivity|constructor].
  - apply NoDup_singleton.
  - vm_compute. reflexivity.
Defined.

(** X17: a prompt typed in code mode after an empty line. *)
Lemma read_prompt_is_never_empty_witness :
  let typed := "\code def f():" +:+ nl +:+ "  return 1" +:+ nl in
  replace "\code" EmptyString typed ≠ EmptyString ∧
  (contains "\code" typed = false →
     replace "\code" EmptyString typed = typed) ∧
  ∃ taken, taken ≠ [] ∧
    [EmptyString; "\code def f():"; "  return 1"; "\end"; "quit"]
    = taken ++ ["quit"].
Proof.
  eapply (read_prompt_is_never_empty
            [EmptyString; "\code def f():"; "  return 1"; "\end"; "quit"]
            fresh).
  vm_compute; reflexivity.
Defined.

(** X18: two lines of code, closed by a line that holds more than '\end'. *)
Lemma code_mode_joins_lines_until_end_witness :
  read_prompt
    ("\code def f():" :: ["  return 1"; "  # done"]
       ++ "\end of it" :: ["quit"]) fresh
  = (Returned ("\code def f():" +:+ nl +:+ "  return 1" +:+ nl
                 +:+ "  # done" +:+ nl, ["quit"]),
     set_stdout (stdout fresh
                   ++ [Colors.YELLOW;
                       code_mode_notice;
                       Colors.ENDC]) fresh).
Proof.
  apply (code_mode_joins_lines_until_end "\code def f():"
           ["  return 1"; "  # done"] "\end of it" ["quit"] fresh).
  - vm_compute; reflexivity.
  - repeat constructor.
  - vm_compute; reflexivity.
Defined.

(** X19: two empty lines, then the command or the end of the input. *)
Lemma run_ends_on_command_or_end_of_input_witness :
  run answering render repr_args 1 3
    ([EmptyString; EmptyString] ++ ["quit"; "hi"]) fresh
    = (Returned tt, fresh) ∧
  run answering render repr_args 1 3 [EmptyString; EmptyString] fresh
    = (Raised EOFError, fresh).
Proof.
  destruct (run_ends_on_command_or_end_of_input answering render repr_args
              [EmptyString; EmptyString]) as [Hcmd Hend].
  - repeat constructor.
  - split; [apply Hcmd; set_solver | apply Hend].
Defined.

(** X20: the adapter that answers with an empty list of tool calls; the
    IndexError of [dispatch] ends the loop with 'quit' unread. *)
Lemma exception_of_interact_ends_run_witness :
  run empty_calls render repr_args 5 3
    ([EmptyString] ++ "hi" :: ["quit"]) fresh
  = (Raised (IndexError "list index out of range"),
     (interact empty_calls render repr_args 3 "hi" fresh).2).
Proof.
  apply (exception_of_interact_ends_run empty_calls render repr_args
           [EmptyString] "hi" ["quit"] 4 3 fresh).
  - repeat constructor.
  - done.
  - vm_compute; reflexivity.
  - set_solver.
  - vm_compute; reflexivity.
Defined.

(** X21: one question answered, then the next line is read. *)
Lemma run_asks_line_as_typed_witness :
  run answering render repr_args 2 3 ([] ++ "hi" :: ["quit"]) fresh
  = run answering render repr_args 1 3 ["quit"]
      (interact answering render repr_args 3 "hi" fresh).2.
Proof.
  eapply (run_asks_line_as_typed answering render repr_args
            [] "hi" ["quit"] 1 3 fresh).
  - constructor.
  - done.
  - vm_compute; reflexivity.
  - set_solver.
  - vm_compute; reflexivity.
Defined.

(** X22: two characters, an open fence and a line of code. *)
Lemma highlight_code_never_returns_on_open_fence_witness :
  utils.highlight_code pygments 7 ("ab" +:+ "```python" +:+ " x = 1") "monokai"
  = None.
Proof.
  apply (highlight_code_never_returns_on_open_fence pygments 7
           "ab" " x = 1" "monokai").
  - vm_compute; reflexivity.
  - cbn. lia.
  - vm_compute; reflexivity.
  - vm_compute; reflexivity.
Defined.

(** X23: one block, with text before and after it. *)
Lemma highlight_code_replaces_closed_block_witness :
  utils.highlight_code pygments 0
    ("Try:" +:+ "```python" +:+ "x = 1" +:+ "```" +:+ "ok") "monokai"
  = Some ("Try:" +:+ pygments "x = 1" "monokai" +:+ "ok").
Proof.
  apply (highlight_code_replaces_closed_block pygments 0
           "Try:" "x = 1" "ok" "monokai").
  - vm_compute; reflexivity.
  - vm_compute; reflexivity.
  - vm_compute; reflexivity.
  - vm_compute; reflexivity.
Defined.

(** X24: the adapter answers with an open fence. *)
Lemma interact_never_returns_on_open_fence_witness :
  let render := utils.highlight_code pygments 9 in
  let i := interact trailing render repr_args 3 "hi" fresh in
  let f := interact_functional trailing render repr_args 3 "hi" fresh in
  f.1 = Unfinished ∧
  (debug (config fresh) = false → i.1 = Unfinished) ∧
  messages i.2
    = messages fresh ++ [UserMessage (question_header +:+ "hi"); open_answer] ∧
  messages f.2
    = messages fresh ++ [UserMessage (question_header +:+ "hi"); open_answer].
Proof.
  apply (interact_never_returns_on_open_fence trailing pygments repr_args
           9 3 "hi" fresh
           (mkState (mkConfig "monokai" false) registry []
              [UserMessage (question_header +:+ "hi"); open_answer] 1
              ["No tool selected"] [LlmCall (context_of asked)])
           open_answer "See" " x = 1").
  - vm_compute; reflexivity.
  - reflexivity.
  - reflexivity.
  - vm_compute; reflexivity.
  - cbn. lia.
  - vm_compute; reflexivity.
  - vm_compute; reflexivity.
Defined.

End scenario_facts.
